(** * doom-remote-input: the serial bridge (forwarder.c) and the key-event
      client, embedded in Rocq.

    The bridge accepts one TCP connection and relays bytes between the
    socket and a serial device that it first puts into raw mode; the client
    reads Linux input events and sends two-byte press/release messages.

    Layout of the development:
    - [Termios]   : <termios.h> as the code sees it, and [configure_serial_port];
    - [Forwarder] : the two forwarding threads and the join logic of [main];
    - [Client]    : the event loop of the encoder client;
    - [Bridge], [ClientMain] : the two [main] functions around them;
    - [Traces]    : shapes of traces the theorems speak about;
    - the theorems about each. *)

From Stdlib Require Import ZArith List Bool Lia Ascii.
From stdpp Require Import base list relations strings.

Local Open Scope Z_scope.

(* ===================================================================== *)
(** * Line configuration (forwarder.c, lines 26-138)                      *)
(* ===================================================================== *)

Module Termios.

(** [struct termios]: the four flag words are [tcflag_t] (32-bit unsigned),
    [c_cc] is the array [cc_t c_cc[NCCS]].  The line speed is kept the way
    POSIX describes it, in two fields that only [cfsetispeed] and
    [cfsetospeed] write. *)
Record termios := mk_termios {
  c_iflag : Z;
  c_oflag : Z;
  c_cflag : Z;
  c_lflag : Z;
  c_cc : list Z;
  c_ispeed : Z;
  c_ospeed : Z
}.

Definition with_iflag (t : termios) (v : Z) : termios :=
  mk_termios v (c_oflag t) (c_cflag t) (c_lflag t) (c_cc t) (c_ispeed t) (c_ospeed t).
Definition with_oflag (t : termios) (v : Z) : termios :=
  mk_termios (c_iflag t) v (c_cflag t) (c_lflag t) (c_cc t) (c_ispeed t) (c_ospeed t).
Definition with_cflag (t : termios) (v : Z) : termios :=
  mk_termios (c_iflag t) (c_oflag t) v (c_lflag t) (c_cc t) (c_ispeed t) (c_ospeed t).
Definition with_lflag (t : termios) (v : Z) : termios :=
  mk_termios (c_iflag t) (c_oflag t) (c_cflag t) v (c_cc t) (c_ispeed t) (c_ospeed t).
Definition with_cc (t : termios) (v : list Z) : termios :=
  mk_termios (c_iflag t) (c_oflag t) (c_cflag t) (c_lflag t) v (c_ispeed t) (c_ospeed t).
Definition with_ispeed (t : termios) (v : Z) : termios :=
  mk_termios (c_iflag t) (c_oflag t) (c_cflag t) (c_lflag t) (c_cc t) v (c_ospeed t).
Definition with_ospeed (t : termios) (v : Z) : termios :=
  mk_termios (c_iflag t) (c_oflag t) (c_cflag t) (c_lflag t) (c_cc t) (c_ispeed t) v.

(** The macros of <termios.h> that forwarder.c names.  The header belongs
    to the C library, not to the repository, and its values differ between
    architectures, so they are a parameter of the development. *)
Class termios_h := {
  B50 : Z; B75 : Z; B110 : Z; B134 : Z; B150 : Z; B200 : Z; B300 : Z;
  B600 : Z; B1200 : Z; B1800 : Z; B2400 : Z; B4800 : Z; B9600 : Z;
  B19200 : Z; B38400 : Z; B57600 : Z; B115200 : Z; B230400 : Z;
  B460800 : Z; B500000 : Z; B576000 : Z; B921600 : Z; B1000000 : Z;
  B1152000 : Z; B1500000 : Z; B2000000 : Z; B2500000 : Z; B3000000 : Z;
  B3500000 : Z; B4000000 : Z;
  PARENB : Z; CSTOPB : Z; CSIZE : Z; CS8 : Z; CRTSCTS : Z; CREAD : Z;
  CLOCAL : Z;
  ICANON : Z; ECHO : Z; ECHOE : Z; ECHONL : Z; ISIG : Z;
  IXON : Z; IXOFF : Z; IXANY : Z;
  IGNBRK : Z; BRKINT : Z; PARMRK : Z; ISTRIP : Z; INLCR : Z; IGNCR : Z;
  ICRNL : Z;
  OPOST : Z; ONLCR : Z;
  VTIME : nat; VMIN : nat; NCCS : nat
}.

(** The values of Linux's asm-generic/termbits.h (x86, arm, riscv). *)
Definition linux : termios_h := {|
  B50 := 1; B75 := 2; B110 := 3; B134 := 4; B150 := 5; B200 := 6; B300 := 7;
  B600 := 8; B1200 := 9; B1800 := 10; B2400 := 11; B4800 := 12; B9600 := 13;
  B19200 := 14; B38400 := 15; B57600 := 4097; B115200 := 4098;
  B230400 := 4099; B460800 := 4100; B500000 := 4101; B576000 := 4102;
  B921600 := 4103; B1000000 := 4104; B1152000 := 4105; B1500000 := 4106;
  B2000000 := 4107; B2500000 := 4108; B3000000 := 4109; B3500000 := 4110;
  B4000000 := 4111;
  PARENB := 256; CSTOPB := 64; CSIZE := 48; CS8 := 48;
  CRTSCTS := 2147483648; CREAD := 128; CLOCAL := 2048;
  ICANON := 2; ECHO := 8; ECHOE := 16; ECHONL := 64; ISIG := 1;
  IXON := 1024; IXOFF := 4096; IXANY := 2048;
  IGNBRK := 1; BRKINT := 2; PARMRK := 8; ISTRIP := 32; INLCR := 64;
  IGNCR := 128; ICRNL := 256;
  OPOST := 1; ONLCR := 4;
  VTIME := 5%nat; VMIN := 6%nat; NCCS := 32%nat
|}.

(** [speed_t] is a 32-bit unsigned integer: [(speed_t)-1] wraps. *)
Definition to_speed_t (z : Z) : Z := z mod 2 ^ 32.

(** What the code writes to stderr. *)
Inductive diag :=
| InvalidBaud (baudrate : Z)      (* fprintf(stderr, "Error: Invalid or unsupported baud rate: %d\n") *)
| PerrorTcgetattr                 (* perror("Error from tcgetattr") *)
| PerrorTcsetattr.                (* perror("Error from tcsetattr") *)

(** The serial device behind the descriptor: its current line attributes,
    whether the two ioctl-backed calls succeed on it, and how many times
    attributes were committed to it. *)
Record serial_dev := mk_dev {
  line : termios;
  tcgetattr_ok : bool;
  tcsetattr_ok : bool;
  commits : nat
}.

(** [tcgetattr(fd, &tty)]: [Some] is a return of 0 with the struct filled. *)
Definition tcgetattr (fd : serial_dev) : option termios :=
  if tcgetattr_ok fd then Some (line fd) else None.

(** [tcsetattr(fd, TCSANOW, &tty)]: [Some] is a return of 0 with the
    attributes taken over by the device. *)
Definition tcsetattr (fd : serial_dev) (tty : termios) : option serial_dev :=
  if tcsetattr_ok fd
  then Some (mk_dev tty (tcgetattr_ok fd) (tcsetattr_ok fd) (S (commits fd)))
  else None.

(** The result of [configure_serial_port]: the device afterwards, the
    returned [int], and the diagnostics printed. *)
Record configured := mk_configured {
  cfg_dev : serial_dev;
  cfg_ret : Z;
  cfg_stderr : list diag
}.

Section Configurator.
Context {H : termios_h}.

(** The speed codes the C library accepts: the B-constants. *)
Definition speed_codes : list Z :=
  [B50; B75; B110; B134; B150; B200; B300; B600; B1200; B1800; B2400; B4800;
   B9600; B19200; B38400; B57600; B115200; B230400; B460800; B500000;
   B576000; B921600; B1000000; B1152000; B1500000; B2000000; B2500000;
   B3000000; B3500000; B4000000].

Definition speed_valid (speed : Z) : bool := existsb (Z.eqb speed) speed_codes.

(** [cfsetospeed] and [cfsetispeed] of the C library (POSIX): an invalid
    speed code is refused with -1 and the struct is left as it was.  The
    speed is kept in the two speed fields; a C library that stores it
    inside [c_cflag] (Linux: the CBAUD bits) is not followed that far. *)
Definition cfsetospeed (tty : termios) (speed : Z) : termios * Z :=
  if speed_valid speed then (with_ospeed tty speed, 0) else (tty, -1).

Definition cfsetispeed (tty : termios) (speed : Z) : termios * Z :=
  if speed_valid speed then (with_ispeed tty speed, 0) else (tty, -1).

(** forwarder.c:26 *)
Definition baudrate_to_speed_t (baudrate : Z) : Z * list diag :=
  match baudrate with
  | 50 => (B50, [])
  | 75 => (B75, [])
  | 110 => (B110, [])
  | 134 => (B134, [])
  | 150 => (B150, [])
  | 200 => (B200, [])
  | 300 => (B300, [])
  | 600 => (B600, [])
  | 1200 => (B1200, [])
  | 1800 => (B1800, [])
  | 2400 => (B2400, [])
  | 4800 => (B4800, [])
  | 9600 => (B9600, [])
  | 19200 => (B19200, [])
  | 38400 => (B38400, [])
  | 57600 => (B57600, [])
  | 115200 => (B115200, [])
  | 230400 => (B230400, [])
  | 460800 => (B460800, [])
  | 500000 => (B500000, [])
  | 576000 => (B576000, [])
  | 921600 => (B921600, [])
  | 1000000 => (B1000000, [])
  | 1152000 => (B1152000, [])
  | 1500000 => (B1500000, [])
  | 2000000 => (B2000000, [])
  | 2500000 => (B2500000, [])
  | 3000000 => (B3000000, [])
  | 3500000 => (B3500000, [])
  | 4000000 => (B4000000, [])
  | _ => (to_speed_t (-1), [InvalidBaud baudrate])
  end.

(** The assignments of forwarder.c:110-130 on the local [tty], in order. *)
Definition set_raw_fields (tty : termios) : termios :=
  let tty := with_cflag tty (Z.land (c_cflag tty) (Z.lnot PARENB)) in
  let tty := with_cflag tty (Z.land (c_cflag tty) (Z.lnot CSTOPB)) in
  let tty := with_cflag tty (Z.land (c_cflag tty) (Z.lnot CSIZE)) in
  let tty := with_cflag tty (Z.lor (c_cflag tty) CS8) in
  let tty := with_cflag tty (Z.land (c_cflag tty) (Z.lnot CRTSCTS)) in
  let tty := with_cflag tty (Z.lor (c_cflag tty) (Z.lor CREAD CLOCAL)) in
  let tty := with_lflag tty (Z.land (c_lflag tty) (Z.lnot ICANON)) in
  let tty := with_lflag tty (Z.land (c_lflag tty) (Z.lnot ECHO)) in
  let tty := with_lflag tty (Z.land (c_lflag tty) (Z.lnot ECHOE)) in
  let tty := with_lflag tty (Z.land (c_lflag tty) (Z.lnot ECHONL)) in
  let tty := with_lflag tty (Z.land (c_lflag tty) (Z.lnot ISIG)) in
  let tty := with_iflag tty
    (Z.land (c_iflag tty) (Z.lnot (Z.lor (Z.lor IXON IXOFF) IXANY))) in
  let tty := with_iflag tty
    (Z.land (c_iflag tty)
       (Z.lnot (Z.lor (Z.lor (Z.lor (Z.lor (Z.lor (Z.lor
          IGNBRK BRKINT) PARMRK) ISTRIP) INLCR) IGNCR) ICRNL))) in
  let tty := with_oflag tty (Z.land (c_oflag tty) (Z.lnot OPOST)) in
  let tty := with_oflag tty (Z.land (c_oflag tty) (Z.lnot ONLCR)) in
  let tty := with_cc tty (<[VTIME := 10]> (c_cc tty)) in
  let tty := with_cc tty (<[VMIN := 1]> (c_cc tty)) in
  tty.

(** forwarder.c:96.  The results of [cfsetospeed] and [cfsetispeed] are
    dropped, as in the source. *)
Definition configure_serial_port (fd : serial_dev) (baud_rate : Z) : configured :=
  match tcgetattr fd with
  | None => mk_configured fd (-1) [PerrorTcgetattr]
  | Some tty =>
    let '(b, err) := baudrate_to_speed_t baud_rate in
    let tty := fst (cfsetospeed tty b) in
    let tty := fst (cfsetispeed tty b) in
    let tty := set_raw_fields tty in
    match tcsetattr fd tty with
    | None => mk_configured fd (-1) (err ++ [PerrorTcsetattr])
    | Some fd' => mk_configured fd' 0 err
    end
  end.

(** The case labels of the switch in [baudrate_to_speed_t]. *)
Definition supported_baud_rates : list Z :=
  [50; 75; 110; 134; 150; 200; 300; 600; 1200; 1800; 2400; 4800; 9600;
   19200; 38400; 57600; 115200; 230400; 460800; 500000; 576000; 921600;
   1000000; 1152000; 1500000; 2000000; 2500000; 3000000; 3500000; 4000000].

Definition supported (baud : Z) : bool := existsb (Z.eqb baud) supported_baud_rates.

(** What the header has to guarantee for the assignments above to mean
    what their comments say: [CS8] is a value of the [CSIZE] field, the
    masks that are set do not overlap the ones that are cleared, the two
    [c_cc] slots are distinct and inside the array, and no speed code
    collides with the error value [(speed_t)-1]. *)
Definition header_ok : bool :=
  (Z.land CS8 CSIZE =? CS8) &&
  (Z.land CS8 PARENB =? 0) && (Z.land CS8 CSTOPB =? 0) &&
  (Z.land CRTSCTS CSIZE =? 0) &&
  (Z.land (Z.lor CREAD CLOCAL) PARENB =? 0) &&
  (Z.land (Z.lor CREAD CLOCAL) CSTOPB =? 0) &&
  (Z.land (Z.lor CREAD CLOCAL) CSIZE =? 0) &&
  (Z.land (Z.lor CREAD CLOCAL) CRTSCTS =? 0) &&
  negb (Nat.eqb VTIME VMIN) && Nat.ltb VTIME NCCS && Nat.ltb VMIN NCCS &&
  negb (speed_valid (to_speed_t (-1))).

(** The raw-mode line state, item by item. *)
Definition eight_data_bits (t : termios) : bool := Z.land (c_cflag t) CSIZE =? CS8.
Definition no_parity (t : termios) : bool := Z.land (c_cflag t) PARENB =? 0.
Definition one_stop_bit (t : termios) : bool := Z.land (c_cflag t) CSTOPB =? 0.
Definition no_hw_flow_control (t : termios) : bool := Z.land (c_cflag t) CRTSCTS =? 0.
Definition no_sw_flow_control (t : termios) : bool :=
  Z.land (c_iflag t) (Z.lor (Z.lor IXON IXOFF) IXANY) =? 0.
Definition local_line (t : termios) : bool := Z.land (c_cflag t) CLOCAL =? CLOCAL.
Definition receiver_enabled (t : termios) : bool := Z.land (c_cflag t) CREAD =? CREAD.
Definition no_line_processing (t : termios) : bool :=
  (Z.land (c_lflag t) ICANON =? 0) && (Z.land (c_lflag t) ECHO =? 0) &&
  (Z.land (c_lflag t) ECHOE =? 0) && (Z.land (c_lflag t) ECHONL =? 0) &&
  (Z.land (c_lflag t) ISIG =? 0).
Definition no_output_processing (t : termios) : bool :=
  (Z.land (c_oflag t) OPOST =? 0) && (Z.land (c_oflag t) ONLCR =? 0).
Definition no_input_special_handling (t : termios) : bool :=
  Z.land (c_iflag t)
    (Z.lor (Z.lor (Z.lor (Z.lor (Z.lor (Z.lor
       IGNBRK BRKINT) PARMRK) ISTRIP) INLCR) IGNCR) ICRNL) =? 0.

Definition raw_mode (t : termios) : bool :=
  eight_data_bits t && no_parity t && one_stop_bit t &&
  no_hw_flow_control t && no_sw_flow_control t &&
  local_line t && receiver_enabled t &&
  no_line_processing t && no_output_processing t &&
  no_input_special_handling t.

End Configurator.

(** A line as a freshly opened Linux tty has it: cooked mode (ICRNL, IXON,
    OPOST, ONLCR, ISIG, ICANON, ECHO, ...), 8 bits, speed code 15. *)
Definition cooked_line : termios :=
  mk_termios 1280 5 176 35387
    [3; 28; 127; 21; 4; 0; 1; 0; 17; 19; 26; 0; 18; 15; 23; 22;
     0; 0; 0; 0; 0; 0; 0; 0; 0; 0; 0; 0; 0; 0; 0; 0]
    15 15.

Definition cooked_dev : serial_dev := mk_dev cooked_line true true 0.

End Termios.

(* ===================================================================== *)
(** * The kernel's side of the read timeout                               *)
(* ===================================================================== *)

Module Tty.
Import Termios.

(** What a [read] on the serial descriptor does with the [c_cc[VMIN]] and
    [c_cc[VTIME]] that [configure_serial_port] leaves is decided by the
    terminal driver, not by the repository.  This is its noncanonical
    read as termios(3) and POSIX describe it, in steps of a tenth of a
    second, the unit of VTIME:
    - MIN > 0, TIME > 0: TIME is an inter-byte timer, started when the
      first byte has arrived and restarted by every byte; the read
      returns when MIN bytes are there or the timer runs out;
    - MIN > 0, TIME = 0: the read returns when MIN bytes are there;
    - MIN = 0, TIME > 0: the timer starts with the call; the read returns
      when a byte is there, or empty-handed when the timer runs out;
    - MIN = 0, TIME = 0: the read returns at once with what is there. *)

Inductive read_result :=
| ReadReturns (tenths : nat) (data : list Z)   (* returned after so many tenths of a second *)
| ReadBlocked.                                 (* still blocked at the end of the timeline *)

(** [timeline]: the bytes that arrive during each successive tenth of a
    second, its head being what is queued when the call is made.
    [got]: the bytes that arrived since the call; [quiet]: the tenths
    that passed since the last byte, or since the call. *)
Fixpoint read_from (vmin vtime : Z) (count : nat) (tenths : nat)
    (got : list Z) (quiet : Z) (timeline : list (list Z)) : read_result :=
  match timeline with
  | [] => ReadBlocked
  | arrived :: later =>
    let got := got ++ arrived in
    let quiet := match arrived with [] => quiet + 1 | _ => 0 end in
    let have := Z.of_nat (length got) in
    if 0 <? vmin then
      if Z.min vmin (Z.of_nat count) <=? have then ReadReturns tenths (take count got)
      else if (0 <? vtime) && (0 <? have) && (vtime <=? quiet)
      then ReadReturns tenths (take count got)
      else read_from vmin vtime count (S tenths) got quiet later
    else
      if 0 <? have then ReadReturns tenths (take count got)
      else if vtime <=? quiet then ReadReturns tenths []
      else read_from vmin vtime count (S tenths) got quiet later
  end.

Section Read.
Context {H : termios_h}.


End Read.

(** A line on which nothing arrives for [n] tenths of a second. *)
Definition silence (n : nat) : list (list Z) := replicate n [].

End Tty.

(* ===================================================================== *)
(** * The forwarding engine (forwarder.c, lines 19-24, 140-178, 277-289) *)
(* ===================================================================== *)

Module Forwarder.

Definition RX_BUFFER_SIZE : nat := 2.
Definition TX_BUFFER_SIZE : nat := 256.

(** One [char] of a stack buffer: [None] while nothing was stored in it
    (an automatic array starts out indeterminate), [Some b] afterwards. *)
Definition cell : Type := option Z.

(** [char buffer[n];] *)
Definition uninitialised (n : nat) : list cell := replicate n None.

(** Bytes as they sit in a buffer once stored. *)
Definition cells (data : list Z) : list cell := List.map Some data.

(** [buffer[i]] *)
Definition index (buffer : list cell) (i : nat) : cell := default None (buffer !! i).

(** The three descriptors the threads use. *)
Inductive fd := tcp_socket_fd | serial_port_fd | STDOUT_FILENO.

(** What a thread does to the outside world, in program order. *)
Inductive event :=
| EvPrintf (b0 b1 : cell)                            (* printf("%x %x\n", buffer[0], buffer[1]) *)
| EvWrite (to : fd) (payload : list cell) (ret : Z)  (* write(to, buffer, n), which returned ret *)
| EvPerror                                           (* perror("write") *)
| EvExit (status : Z).                               (* exit(status) *)

(** The operating system's answer to one [recv]/[read]: the returned
    [ssize_t] and the bytes it delivered. *)
Record input := mk_input { in_ret : Z; in_data : list Z }.

(** The answers one loop iteration consumes: that of its read call and,
    if it gets that far, the return value of its write call. *)
Record turn := mk_turn { rx : input; wr : Z }.

(** [recv(fd, buffer, len, 0)] and [read(fd, buffer, len)]: the delivered
    bytes are stored from [buffer[0]] on, the rest of the buffer keeps
    what it held. *)
Definition os_read (r : input) (buffer : list cell) : list cell * Z :=
  (cells (in_data r) ++ drop (length (in_data r)) buffer, in_ret r).

(** An answer the kernel can give to a read of at most [len] bytes: a
    positive return is the number of bytes delivered and is at most [len];
    otherwise nothing is delivered. *)
Definition input_ok (len : nat) (r : input) : bool :=
  if 0 <? in_ret r
  then (in_ret r =? Z.of_nat (length (in_data r))) && (length (in_data r) <=? len)%nat
  else (length (in_data r) =? 0)%nat.

(** Where a thread stands: not yet created, in its loop with its buffer,
    returned from its function, or having called [exit]. *)
Inductive thread_state :=
| NotCreated
| Running (buffer : list cell)
| Returned
| Exited (status : Z).

(** One iteration of the loop of [tcp_to_serial_thread] (forwarder.c:145-153). *)
Definition tcp_to_serial_iter (verbose : bool) (buffer : list cell) (os : turn)
  : list event * thread_state :=
  let '(buffer, bytes_read) := os_read (rx os) buffer in
  if 0 <? bytes_read then
    let log := if verbose then [EvPrintf (index buffer 0) (index buffer 1)] else [] in
    let payload := take (Z.to_nat bytes_read) buffer in
    if negb (wr os =? bytes_read)
    then (log ++ [EvWrite serial_port_fd payload (wr os); EvPerror; EvExit 1], Exited 1)
    else (log ++ [EvWrite serial_port_fd payload (wr os)], Running buffer)
  else ([], Returned).

(** One iteration of the loop of [serial_to_tcp_thread] (forwarder.c:163-175);
    the [send] to the socket is compiled out by [#if 0]. *)
Definition serial_to_tcp_iter (buffer : list cell) (os : turn)
  : list event * thread_state :=
  let '(buffer, bytes_read) := os_read (rx os) buffer in
  if 0 <? bytes_read then
    let payload := take (Z.to_nat bytes_read) buffer in
    if negb (wr os =? bytes_read)
    then ([EvWrite STDOUT_FILENO payload (wr os); EvPerror; EvExit 1], Exited 1)
    else ([EvWrite STDOUT_FILENO payload (wr os)], Running buffer)
  else ([], Returned).

(** A loop run against the answers [oss]; when they are used up the thread
    is still [Running], blocked in its read call. *)
Fixpoint run_loop (iter : list cell -> turn -> list event * thread_state)
    (buffer : list cell) (oss : list turn) : list event * thread_state :=
  match oss with
  | [] => ([], Running buffer)
  | os :: oss' =>
    match iter buffer os with
    | (evs, Running buffer') =>
        let '(evs', st) := run_loop iter buffer' oss' in (evs ++ evs', st)
    | (evs, st) => (evs, st)
    end
  end.

(** forwarder.c:141 *)
Definition tcp_to_serial_thread (verbose : bool) (oss : list turn)
  : list event * thread_state :=
  run_loop (tcp_to_serial_iter verbose) (uninitialised RX_BUFFER_SIZE) oss.

(** forwarder.c:159 *)
Definition serial_to_tcp_thread (oss : list turn) : list event * thread_state :=
  run_loop serial_to_tcp_iter (uninitialised TX_BUFFER_SIZE) oss.

(** ** Reading a trace *)

Definition fd_eqb (a b : fd) : bool :=
  match a, b with
  | tcp_socket_fd, tcp_socket_fd | serial_port_fd, serial_port_fd
  | STDOUT_FILENO, STDOUT_FILENO => true
  | _, _ => false
  end.

(** The payloads of the write calls on descriptor [d], in order. *)
Fixpoint requested (d : fd) (evs : list event) : list (list cell) :=
  match evs with
  | EvWrite to payload _ :: evs' =>
      if fd_eqb to d then payload :: requested d evs' else requested d evs'
  | _ :: evs' => requested d evs'
  | [] => []
  end.

(** The cells that reached descriptor [d]: of each write, the part the
    kernel reported as written.  Only [write] calls are counted, not what
    [printf] puts on standard output. *)
Fixpoint delivered (d : fd) (evs : list event) : list cell :=
  match evs with
  | EvWrite to payload ret :: evs' =>
      if fd_eqb to d then take (Z.to_nat ret) payload ++ delivered d evs'
      else delivered d evs'
  | _ :: evs' => delivered d evs'
  | [] => []
  end.

(** A trace without its diagnostic [printf]s. *)
Definition is_printf (e : event) : bool :=
  match e with EvPrintf _ _ => true | _ => false end.

Definition without_printf (evs : list event) : list event :=
  List.filter (fun e => negb (is_printf e)) evs.

(** The bytes the answers [oss] hand to the thread up to and including
    the first turn at which its loop stops. *)
Fixpoint consumed (oss : list turn) : list (list Z) :=
  match oss with
  | [] => []
  | os :: oss' =>
    if 0 <? in_ret (rx os)
    then in_data (rx os) ::
         (if negb (wr os =? in_ret (rx os)) then [] else consumed oss')
    else []
  end.

(** ** The shape of a forwarding iteration *)

(** [iter] copies what its read call stored to descriptor [d]. *)
Definition forwards_to (d : fd)
    (iter : list cell -> turn -> list event * thread_state) : Prop :=
  forall buffer os,
    let buffer' := fst (os_read (rx os) buffer) in
    let payload := take (Z.to_nat (in_ret (rx os))) buffer' in
    if 0 <? in_ret (rx os) then
      without_printf (fst (iter buffer os)) =
        EvWrite d payload (wr os) ::
        (if wr os =? in_ret (rx os) then [] else [EvPerror; EvExit 1]) /\
      snd (iter buffer os) =
        (if wr os =? in_ret (rx os) then Running buffer' else Exited 1)
    else iter buffer os = ([], Returned).

(** ** main, from the creation of the threads on (forwarder.c:277-289) *)

Inductive main_pc :=
| CreateTcp       (* pthread_create(&tcp_thread, NULL, tcp_to_serial_thread, NULL) *)
| CreateSerial    (* pthread_create(&serial_thread, NULL, serial_to_tcp_thread, NULL) *)
| JoinTcp         (* pthread_join(tcp_thread, NULL) *)
| JoinSerial      (* pthread_join(serial_thread, NULL) *)
| Closing         (* close(new_socket); close(server_fd); close(serial_port_fd); printf *)
| MainReturned.   (* return 0 *)

Record process := mk_process {
  pc : main_pc;
  tcp_thread : thread_state;
  serial_thread : thread_state;
  trace : list event
}.

Definition start : process := mk_process CreateTcp NotCreated NotCreated [].

(** [exit] ends the whole process: once a thread has called it nothing runs. *)
Definition has_exited (st : thread_state) : bool :=
  match st with Exited _ => true | _ => false end.

Definition alive (p : process) : bool :=
  negb (has_exited (tcp_thread p)) && negb (has_exited (serial_thread p)).

(** The interleavings: main and the two threads take turns in any order;
    a thread's move is one loop iteration against an answer of the kernel,
    and [pthread_join] can only be passed once its thread has returned. *)
Inductive step (verbose : bool) : process -> process -> Prop :=
| step_create_tcp p :
    alive p = true -> pc p = CreateTcp ->
    step verbose p
      (mk_process CreateSerial (Running (uninitialised RX_BUFFER_SIZE))
         (serial_thread p) (trace p))
| step_create_serial p :
    alive p = true -> pc p = CreateSerial ->
    step verbose p
      (mk_process JoinTcp (tcp_thread p)
         (Running (uninitialised TX_BUFFER_SIZE)) (trace p))
| step_tcp p buffer os :
    alive p = true -> tcp_thread p = Running buffer ->
    step verbose p
      (mk_process (pc p) (snd (tcp_to_serial_iter verbose buffer os))
         (serial_thread p)
         (trace p ++ fst (tcp_to_serial_iter verbose buffer os)))
| step_serial p buffer os :
    alive p = true -> serial_thread p = Running buffer ->
    step verbose p
      (mk_process (pc p) (tcp_thread p)
         (snd (serial_to_tcp_iter buffer os))
         (trace p ++ fst (serial_to_tcp_iter buffer os)))
| step_join_tcp p :
    alive p = true -> pc p = JoinTcp -> tcp_thread p = Returned ->
    step verbose p (mk_process JoinSerial (tcp_thread p) (serial_thread p) (trace p))
| step_join_serial p :
    alive p = true -> pc p = JoinSerial -> serial_thread p = Returned ->
    step verbose p (mk_process Closing (tcp_thread p) (serial_thread p) (trace p))
| step_close p :
    alive p = true -> pc p = Closing ->
    step verbose p (mk_process MainReturned (tcp_thread p) (serial_thread p) (trace p)).

Definition reachable (verbose : bool) (p : process) : Prop :=
  rtc (step verbose) start p.


(** What main's position says about the threads. *)
Definition joined (p : process) : Prop :=
  match pc p with
  | CreateTcp => tcp_thread p = NotCreated /\ serial_thread p = NotCreated
  | CreateSerial => serial_thread p = NotCreated
  | JoinTcp => True
  | JoinSerial => tcp_thread p = Returned
  | Closing | MainReturned =>
      tcp_thread p = Returned /\ serial_thread p = Returned
  end.

End Forwarder.

(* ===================================================================== *)
(** * The encoder client (its main loop, lines 109-158)                   *)
(* ===================================================================== *)

Module Client.

Definition PRESS_IDENTIFIER : Z := 254.
Definition RELEASE_IDENTIFIER : Z := 255.

(** [EV_KEY] of <linux/input-event-codes.h>. *)
Definition EV_KEY : Z := 1.

(** [struct input_event] without its timestamp, which the client never
    reads: [type] and [code] are [__u16], [value] is [__s32]. *)
Record input_event := mk_event { ev_type : Z; ev_code : Z; ev_value : Z }.

Definition event_ok (ev : input_event) : bool :=
  (0 <=? ev_type ev) && (ev_type ev <? 2 ^ 16) &&
  (0 <=? ev_code ev) && (ev_code ev <? 2 ^ 16) &&
  (- 2 ^ 31 <=? ev_value ev) && (ev_value ev <? 2 ^ 31).

(** A value stored into a [char] and seen as the byte that goes out. *)
Definition to_char (z : Z) : Z := z mod 2 ^ 8.

(** The [ssize_t] result of [send] converted for the comparison with
    [sizeof(buffer)], which is a [size_t]. *)
Definition to_size_t (z : Z) : Z := z mod 2 ^ 64.

Inductive event :=
| PrintfKeyDown (code : Z)          (* printf("Key Down: %d\n", code) *)
| PrintfKeyUp (code : Z)            (* printf("Key Up: %d\n", code) *)
| PrintfUnknown (value : Z)         (* printf("Unknown event: %d\n", ev.value) *)
| PrintfTooLarge (code : Z)         (* printf("Key code %d too large, skipping\n", code) *)
| EvSend (buffer : list Z) (ret : Z)  (* send(sock, buffer, sizeof(buffer), 0), which returned ret *)
| PerrorRead                        (* perror("Error reading input event") *)
| PerrorSend.                       (* perror("Failed to send data") *)

(** The kernel's answers one iteration consumes: the result of [read],
    what [ev] holds after it, and the result of [send] if it is called. *)
Record turn := mk_turn { rd_ret : Z; ev_after : input_event; snd_ret : Z }.

Inductive ctl := Continue | Break.

(** The body of [while (1)] (lines 110-152). *)
Definition client_iter (verbose : bool) (os : turn) : list event * ctl :=
  if rd_ret os <? 0 then ([PerrorRead], Break)
  else
    let ev := ev_after os in
    if ev_type ev =? EV_KEY then
      let code := ev_code ev in
      let kind : list event * option Z :=
        if ev_value ev =? 1 then
          (if verbose then [PrintfKeyDown code] else [], Some (to_char PRESS_IDENTIFIER))
        else if ev_value ev =? 0 then
          (if verbose then [PrintfKeyUp code] else [], Some (to_char RELEASE_IDENTIFIER))
        else if ev_value ev =? 2 then ([], None)
        else ([PrintfUnknown (ev_value ev)], None) in
      match kind with
      | (log, None) => (log, Continue)
      | (log, Some buffer0) =>
        if 255 <? code then (log ++ [PrintfTooLarge code], Continue)
        else
          let buffer := [buffer0; to_char code] in
          if negb (to_size_t (snd_ret os) =? Z.of_nat (length buffer))
          then (log ++ [EvSend buffer (snd_ret os); PerrorSend], Break)
          else (log ++ [EvSend buffer (snd_ret os)], Continue)
      end
    else ([], Continue).

(** Where the client stands after the answers it was given: still in the
    loop, or out of it (cleanup and [return 0]). *)
Inductive outcome := InLoop | LeftLoop.

Fixpoint client_loop (verbose : bool) (oss : list turn) : list event * outcome :=
  match oss with
  | [] => ([], InLoop)
  | os :: oss' =>
    match client_iter verbose os with
    | (evs, Continue) =>
        let '(evs', o) := client_loop verbose oss' in (evs ++ evs', o)
    | (evs, Break) => (evs, LeftLoop)
    end
  end.

(** The messages put on the wire, in order. *)
Fixpoint sent (evs : list event) : list (list Z) :=
  match evs with
  | EvSend buffer _ :: evs' => buffer :: sent evs'
  | _ :: evs' => sent evs'
  | [] => []
  end.


End Client.

(* ===================================================================== *)
(** * The bridge's main (forwarder.c, lines 15-17, 190-290)               *)
(* ===================================================================== *)

Module Bridge.
Import Termios.

Definition PORT : Z := 65432.
Definition DEVICE : string := "/dev/ttyUSB0".
Definition BAUD_RATE : Z := 115200.

(** The locals [port], [device], [baud] and the global [verbose]. *)
Record options := mk_options {
  port : Z;
  device : string;
  baud : Z;
  verbose : bool
}.

(** Their values before the option loop; a [static bool] starts out false. *)
Definition defaults : options := mk_options PORT DEVICE BAUD_RATE false.

(** A character constant as an [int]. *)
Definition chr (a : Ascii.ascii) : Z := Z.of_N (Ascii.N_of_ascii a).

(** One return of [getopt_long]: the value [c] and what [optarg] points to. *)
Record getopt_ret := mk_getopt { opt_c : Z; opt_arg : string }.

Inductive parse_result :=
| Parsed (o : options)       (* getopt_long returned -1 *)
| UsageExit (status : Z).    (* usage(argv[0]); exit(status) *)

Section Main.
(** [atoi] of the C library. *)
Variable atoi : string -> Z.

(** The option loop (forwarder.c:207-226) against the successive returns
    of [getopt_long]; running out of them stands for the final -1. *)
Fixpoint parse_options (o : options) (rets : list getopt_ret) : parse_result :=
  match rets with
  | [] => Parsed o
  | r :: rets' =>
    let c := opt_c r in
    if c =? -1 then Parsed o
    else if c =? chr "p"%char then
      parse_options (mk_options (atoi (opt_arg r)) (device o) (baud o) (verbose o)) rets'
    else if c =? chr "d"%char then
      parse_options (mk_options (port o) (opt_arg r) (baud o) (verbose o)) rets'
    else if c =? chr "b"%char then
      parse_options (mk_options (port o) (device o) (atoi (opt_arg r)) (verbose o)) rets'
    else if c =? chr "v"%char then
      parse_options (mk_options (port o) (device o) (baud o) true) rets'
    else UsageExit 1
  end.

(** [htons] and [ntohs] on a little-endian host; the argument is
    converted to [uint16_t] first. *)
Definition to_uint16 (z : Z) : Z := z mod 2 ^ 16.

Definition htons (z : Z) : Z :=
  let x := to_uint16 z in
  Z.lor (Z.shiftl (Z.land x 255) 8) (Z.shiftr x 8).

Definition ntohs (z : Z) : Z := htons z.

(** The calls whose failure main reports with [perror]. *)
Inductive call := COpen | CSocket | CBind | CListen | CAccept.

(** What main does to the outside world, in program order. *)
Inductive sys_event :=
| SysUsage                                         (* usage(argv[0]) *)
| SysOpen (path : string) (ret : Z)                (* open(device, O_RDWR | O_NOCTTY | O_SYNC) *)
| SysConfigure (baud_rate ret : Z) (err : list diag)  (* configure_serial_port(serial_port_fd, baud) *)
| SysSocket (ret : Z)                              (* socket(AF_INET, SOCK_STREAM, 0) *)
| SysBind (fd sin_port ret : Z)                    (* bind(server_fd, &address, sizeof(address)) *)
| SysListen (fd backlog ret : Z)                   (* listen(server_fd, 1) *)
| SysAccept (fd ret : Z)                           (* accept(server_fd, &address, &addrlen) *)
| SysClose (fd : Z)                                (* close(fd) *)
| SysPerror (failed : call)                        (* perror(...) *)
| SysPrintfListening (port : Z) (device : string)  (* printf("Server listening on port %d and forwarding to %s...\n") *)
| SysPrintfAccepted                                (* printf("Connection accepted from %s:%d. Starting forwarding...\n") *)
| SysPrintfClosed.                                 (* printf("Connection closed. Exiting.\n") *)

(** The kernel's answers to main's calls, and the device behind the path. *)
Record answers := mk_answers {
  open_ret : Z;
  dev : serial_dev;
  socket_ret : Z;
  bind_ret : Z;
  listen_ret : Z;
  accept_ret : Z
}.

(** How far main got: it returned (or called [exit]) with a status, or it
    is about to create the two threads. *)
Inductive run :=
| Finished (status : Z) (evs : list sys_event) (dev' : serial_dev)
| Forwarding (o : options) (serial_fd server_fd new_socket : Z)
    (evs : list sys_event) (dev' : serial_dev).

Context {H : termios_h}.

(** main up to the creation of the threads (forwarder.c:190-275). *)
Definition main_until_threads (rets : list getopt_ret) (os : answers) : run :=
  match parse_options defaults rets with
  | UsageExit status => Finished status [SysUsage] (dev os)
  | Parsed o =>
    let serial_fd := open_ret os in
    let evs := [SysOpen (device o) serial_fd] in
    if serial_fd <? 0 then Finished 1 (evs ++ [SysPerror COpen]) (dev os)
    else
      let c := configure_serial_port (dev os) (baud o) in
      let evs := evs ++ [SysConfigure (baud o) (cfg_ret c) (cfg_stderr c)] in
      if cfg_ret c <? 0 then Finished 1 evs (cfg_dev c)
      else
        let server_fd := socket_ret os in
        let evs := evs ++ [SysSocket server_fd] in
        if server_fd <? 0 then Finished 1 (evs ++ [SysPerror CSocket]) (cfg_dev c)
        else
          let evs := evs ++ [SysBind server_fd (htons (port o)) (bind_ret os)] in
          if bind_ret os <? 0 then
            Finished 1 (evs ++ [SysPerror CBind; SysClose server_fd; SysClose serial_fd])
              (cfg_dev c)
          else
            let evs := evs ++ [SysListen server_fd 1 (listen_ret os)] in
            if listen_ret os <? 0 then
              Finished 1 (evs ++ [SysPerror CListen; SysClose server_fd; SysClose serial_fd])
                (cfg_dev c)
            else
              let evs := evs ++ [SysPrintfListening (port o) (device o)] in
              let new_socket := accept_ret os in
              let evs := evs ++ [SysAccept server_fd new_socket] in
              if new_socket <? 0 then
                Finished 1 (evs ++ [SysPerror CAccept; SysClose server_fd; SysClose serial_fd])
                  (cfg_dev c)
              else
                Forwarding o serial_fd server_fd new_socket
                  (evs ++ [SysPrintfAccepted]) (cfg_dev c)
  end.

(** main after both joins (forwarder.c:284-289): the events and the
    returned status. *)
Definition main_after_joins (serial_fd server_fd new_socket : Z)
  : list sys_event * Z :=
  ([SysClose new_socket; SysClose server_fd; SysClose serial_fd; SysPrintfClosed], 0).

End Main.

(** ** Reading main's trace *)

(** The descriptors obtained, and the descriptors closed, in order. *)
Fixpoint opened (evs : list sys_event) : list Z :=
  match evs with
  | SysOpen _ ret :: evs' | SysSocket ret :: evs' | SysAccept _ ret :: evs' =>
      if ret <? 0 then opened evs' else ret :: opened evs'
  | _ :: evs' => opened evs'
  | [] => []
  end.

Fixpoint closed (evs : list sys_event) : list Z :=
  match evs with
  | SysClose fd :: evs' => fd :: closed evs'
  | _ :: evs' => closed evs'
  | [] => []
  end.

(** Every option value is one the switch has a case for. *)
Definition known_option (r : getopt_ret) : bool :=
  (opt_c r =? chr "p"%char) || (opt_c r =? chr "d"%char) ||
  (opt_c r =? chr "b"%char) || (opt_c r =? chr "v"%char).

(** The argument of the last option [c] among the returns, if there is one. *)
Fixpoint last_arg (c : Z) (rets : list getopt_ret) : option string :=
  match rets with
  | [] => None
  | r :: rets' =>
    match last_arg c rets' with
    | Some a => Some a
    | None => if opt_c r =? c then Some (opt_arg r) else None
    end
  end.

(** Everything main needs before it creates the threads went well. *)
Definition ready (parsed : bool) (os : answers) : bool :=
  parsed && (0 <=? open_ret os) &&
  tcgetattr_ok (dev os) && tcsetattr_ok (dev os) &&
  (0 <=? socket_ret os) && (0 <=? bind_ret os) && (0 <=? listen_ret os) &&
  (0 <=? accept_ret os).

Definition is_parsed (r : parse_result) : bool :=
  match r with Parsed _ => true | UsageExit _ => false end.

(** The two ways out of main that have no [close]: the device was opened
    and then [configure_serial_port] failed, or it succeeded and [socket]
    failed. *)
Definition left_open (parsed : bool) (os : answers) : bool :=
  parsed && (0 <=? open_ret os) &&
  (negb (tcgetattr_ok (dev os) && tcsetattr_ok (dev os)) || (socket_ret os <? 0)).

(** [f] holds of every number of [k] bits. *)
Fixpoint all_bits (k : nat) (f : Z -> bool) : bool :=
  match k with
  | O => f 0
  | S k' => all_bits k' (fun x => f (2 * x) && f (2 * x + 1))
  end.

End Bridge.

(* ===================================================================== *)
(** * The client's main (lines 15-17, 32-107, 155-158)                    *)
(* ===================================================================== *)

Module ClientMain.
Import Client.

Definition SERVER_HOST : string := "127.0.0.1".
Definition SERVER_PORT : string := "65432".
Definition EVENT_DEVICE : string := "/dev/input/event0".

(** The globals [host], [port], [device] and [verbose]. *)
Record options := mk_options {
  host : string;
  port : string;
  device : string;
  verbose : bool
}.

Definition defaults : options :=
  mk_options SERVER_HOST SERVER_PORT EVENT_DEVICE false.

Inductive parse_result :=
| Parsed (o : options)       (* getopt_long returned -1 *)
| UsageExit (status : Z).    (* usage(argv[0]); exit(status) *)

(** The option loop (lines 49-67) against the successive returns of
    [getopt_long]. *)
Fixpoint parse_options (o : options) (rets : list Bridge.getopt_ret) : parse_result :=
  match rets with
  | [] => Parsed o
  | r :: rets' =>
    let opt := Bridge.opt_c r in
    let optarg := Bridge.opt_arg r in
    if opt =? -1 then Parsed o
    else if opt =? Bridge.chr "h"%char then
      parse_options (mk_options optarg (port o) (device o) (verbose o)) rets'
    else if opt =? Bridge.chr "p"%char then
      parse_options (mk_options (host o) optarg (device o) (verbose o)) rets'
    else if opt =? Bridge.chr "d"%char then
      parse_options (mk_options (host o) (port o) optarg (verbose o)) rets'
    else if opt =? Bridge.chr "v"%char then
      parse_options (mk_options (host o) (port o) (device o) true) rets'
    else UsageExit 1
  end.

Inductive call := COpen | CSocket | CConnect.

(** What main does to the outside world, in program order. *)
Inductive sys_event :=
| SysUsage                                      (* usage(argv[0]) *)
| SysOpen (path : string) (ret : Z)             (* open(device, O_RDONLY) *)
| SysGetaddrinfo (node service : string) (status : Z)  (* getaddrinfo(host, port, &hints, &result) *)
| SysGaiError (status : Z)                      (* fprintf(stderr, "getaddrinfo error: %s\n", gai_strerror(status)) *)
| SysSocket (ret : Z)                           (* socket(result->ai_family, ...) *)
| SysConnect (fd ret : Z)                       (* connect(sock, result->ai_addr, result->ai_addrlen) *)
| SysFreeaddrinfo                               (* freeaddrinfo(result) *)
| SysClose (fd : Z)                             (* close(fd) *)
| SysPerror (failed : call)                     (* perror(...) *)
| SysLoop (evs : list event).                   (* the while (1) loop *)

(** The kernel's and the resolver's answers. *)
Record answers := mk_answers {
  open_ret : Z;
  getaddrinfo_status : Z;
  socket_ret : Z;
  connect_ret : Z;
  turns : list turn
}.

(** main has returned with a status, or it is still in its loop. *)
Inductive run :=
| Finished (status : Z) (evs : list sys_event)
| Looping (evs : list sys_event).

(** The client's main (lines 37-159). *)
Definition main (rets : list Bridge.getopt_ret) (os : answers) : run :=
  match parse_options defaults rets with
  | UsageExit status => Finished status [SysUsage]
  | Parsed o =>
    let event_fd := open_ret os in
    let evs := [SysOpen (device o) event_fd] in
    if event_fd <? 0 then Finished 1 (evs ++ [SysPerror COpen])
    else
      let status := getaddrinfo_status os in
      let evs := evs ++ [SysGetaddrinfo (host o) (port o) status] in
      if negb (status =? 0) then
        Finished (-1) (evs ++ [SysGaiError status; SysClose event_fd])
      else
        let sock := socket_ret os in
        let evs := evs ++ [SysSocket sock] in
        if sock <? 0 then
          Finished 1 (evs ++ [SysPerror CSocket; SysClose event_fd; SysFreeaddrinfo])
        else
          let evs := evs ++ [SysConnect sock (connect_ret os)] in
          if connect_ret os =? -1 then
            Finished 1 (evs ++ [SysPerror CConnect; SysClose event_fd; SysClose sock;
                                SysFreeaddrinfo])
          else
            let evs := evs ++ [SysFreeaddrinfo] in
            match client_loop (verbose o) (turns os) with
            | (l, InLoop) => Looping (evs ++ [SysLoop l])
            | (l, LeftLoop) =>
                Finished 0 (evs ++ [SysLoop l; SysClose event_fd; SysClose sock])
            end
  end.

(** The exit status the parent sees: the low eight bits of main's result. *)
Definition wait_status (status : Z) : Z := status mod 2 ^ 8.

Definition is_parsed (r : parse_result) : bool :=
  match r with Parsed _ => true | UsageExit _ => false end.

(** Everything main needs before its loop went well. *)
Definition connected (parsed : bool) (os : answers) : bool :=
  parsed && (0 <=? open_ret os) && (getaddrinfo_status os =? 0) &&
  (0 <=? socket_ret os) && negb (connect_ret os =? -1).

(** The records that can matter to the loop: those of key type, and the
    answers at which the read failed. *)
Definition matters (os : turn) : bool :=
  (rd_ret os <? 0) || (ev_type (ev_after os) =? EV_KEY).

(** ** Reading main's trace *)

Fixpoint opened (evs : list sys_event) : list Z :=
  match evs with
  | SysOpen _ ret :: evs' | SysSocket ret :: evs' =>
      if ret <? 0 then opened evs' else ret :: opened evs'
  | _ :: evs' => opened evs'
  | [] => []
  end.

Fixpoint closed (evs : list sys_event) : list Z :=
  match evs with
  | SysClose fd :: evs' => fd :: closed evs'
  | _ :: evs' => closed evs'
  | [] => []
  end.

Fixpoint resolved (evs : list sys_event) : nat :=
  match evs with
  | SysGetaddrinfo _ _ status :: evs' =>
      if status =? 0 then S (resolved evs') else resolved evs'
  | _ :: evs' => resolved evs'
  | [] => 0%nat
  end.

Fixpoint freed (evs : list sys_event) : nat :=
  match evs with
  | SysFreeaddrinfo :: evs' => S (freed evs')
  | _ :: evs' => freed evs'
  | [] => 0%nat
  end.

(** ** Reading the loop's trace *)

(** A message as the other end would read it: a press or a release of a
    key code. *)
Definition decode (message : list Z) : option (bool * Z) :=
  match message with
  | [kind; code] =>
      if kind =? PRESS_IDENTIFIER then Some (true, code)
      else if kind =? RELEASE_IDENTIFIER then Some (false, code)
      else None
  | _ => None
  end.

(** The key transitions among the records the loop gets through: presses
    and releases with a code that fits a byte, up to the answer at which
    the loop is left. *)
Fixpoint transitions (oss : list turn) : list (bool * Z) :=
  match oss with
  | [] => []
  | os :: oss' =>
    if rd_ret os <? 0 then []
    else
      let ev := ev_after os in
      if (ev_type ev =? EV_KEY) && ((ev_value ev =? 1) || (ev_value ev =? 0))
         && (ev_code ev <=? 255)
      then (ev_value ev =? 1, ev_code ev) ::
           (if to_size_t (snd_ret os) =? 2 then transitions oss' else [])
      else transitions oss'
  end.

End ClientMain.

(* ===================================================================== *)
(** * Shapes of a thread's trace                                          *)
(* ===================================================================== *)

Module Traces.
Import Forwarder.

(** [perror("write")] and [exit]: what a thread does when a write fell short. *)
Definition is_fatal (e : event) : bool :=
  match e with EvPerror | EvExit _ => true | _ => false end.

Definition quiet (evs : list event) : bool := forallb (fun e => negb (is_fatal e)) evs.

(** A trace and the state it ends in fit together: a thread that called
    [exit] did so with status 1, as the last thing after the one
    [perror], and otherwise there is neither. *)
Definition ends_properly (evs : list event) (st : thread_state) : Prop :=
  match st with
  | Exited status =>
      status = 1 /\ exists evs', evs = evs' ++ [EvPerror; EvExit 1] /\ quiet evs' = true
  | _ => quiet evs = true
  end.

(** Every write to the serial descriptor comes right after a [printf]
    whose first operand is the first cell written, and there is no
    [printf] without its write. *)
Fixpoint logged_before_written (evs : list event) : bool :=
  match evs with
  | [] => true
  | EvPrintf b0 _ :: EvWrite serial_port_fd (c :: payload) _ :: evs' =>
      match b0, c with
      | Some x, Some y => (x =? y) && logged_before_written evs'
      | _, _ => false
      end
  | EvPerror :: evs' | EvExit _ :: evs' => logged_before_written evs'
  | _ => false
  end.

(** The part of the process trace that belongs to one direction is the
    trace of that direction's thread run on its own. *)
Definition runs_alone (d : fd) (thread : list turn -> list event * thread_state)
    (st : thread_state) (evs : list event) : Prop :=
  match st with
  | NotCreated => requested d evs = [] /\ delivered d evs = []
  | _ => exists oss,
      snd (thread oss) = st /\
      requested d evs = requested d (fst (thread oss)) /\
      delivered d evs = delivered d (fst (thread oss))
  end.

(** The answers of a kernel that hands over [chunk] in one read and takes
    all of it in one write, and a read at the end of the stream. *)
Definition whole (chunk : list Z) : turn :=
  mk_turn (mk_input (Z.of_nat (length chunk)) chunk) (Z.of_nat (length chunk)).

Definition end_of_stream : turn := mk_turn (mk_input 0 []) 0.

End Traces.

(* ===================================================================== *)
(** * Facts about the line configuration                                  *)
(* ===================================================================== *)

Module TermiosFacts.
Import Termios.

(** ** Masks *)

Ltac bitwise :=
  apply Z.bits_inj'; intros ?n ?Hn;
  repeat rewrite ?Z.land_spec, ?Z.lor_spec, ?Z.lnot_spec, ?Z.bits_0 by assumption.

Lemma land_zero_bits (a b : Z) :
  Z.land a b = 0 -> forall n, Z.testbit a n && Z.testbit b n = false.
Proof.
  intros E n. rewrite <- Z.land_spec, E. apply Z.bits_0.
Qed.

Lemma cleared (x m : Z) : Z.land (Z.land x (Z.lnot m)) m = 0.
Proof.
  bitwise. destruct (Z.testbit x n), (Z.testbit m n); reflexivity.
Qed.

Lemma clear_keeps_zero (x k m : Z) :
  Z.land x m = 0 -> Z.land (Z.land x (Z.lnot k)) m = 0.
Proof.
  intros E. bitwise. pose proof (land_zero_bits _ _ E n) as Hb.
  destruct (Z.testbit x n), (Z.testbit m n), (Z.testbit k n); simpl in *; congruence.
Qed.

Lemma clear_keeps_field (x k m : Z) :
  Z.land k m = 0 -> Z.land (Z.land x (Z.lnot k)) m = Z.land x m.
Proof.
  intros E. bitwise. pose proof (land_zero_bits _ _ E n) as Hb.
  destruct (Z.testbit x n), (Z.testbit m n), (Z.testbit k n); simpl in *; congruence.
Qed.

Lemma set_keeps_field (x k m : Z) :
  Z.land k m = 0 -> Z.land (Z.lor x k) m = Z.land x m.
Proof.
  intros E. bitwise. pose proof (land_zero_bits _ _ E n) as Hb.
  destruct (Z.testbit x n), (Z.testbit m n), (Z.testbit k n); simpl in *; congruence.
Qed.

Lemma set_in_field (x k m : Z) :
  Z.land x m = 0 -> Z.land (Z.lor x k) m = Z.land k m.
Proof.
  intros E. bitwise. pose proof (land_zero_bits _ _ E n) as Hb.
  destruct (Z.testbit x n), (Z.testbit m n), (Z.testbit k n); simpl in *; congruence.
Qed.

Lemma set_left (x a b : Z) : Z.land (Z.lor x (Z.lor a b)) a = a.
Proof.
  bitwise. destruct (Z.testbit x n), (Z.testbit a n), (Z.testbit b n); reflexivity.
Qed.

Lemma set_right (x a b : Z) : Z.land (Z.lor x (Z.lor a b)) b = b.
Proof.
  bitwise. destruct (Z.testbit x n), (Z.testbit a n), (Z.testbit b n); reflexivity.
Qed.

Section Configurator.
Context {H : termios_h}.

(** ** The baud-rate table *)

Lemma speed_code_valid (b : Z) : In b speed_codes -> speed_valid b = true.
Proof.
  intros Hin. unfold speed_valid. apply existsb_exists.
  exists b. split; [assumption | apply Z.eqb_refl].
Qed.

Lemma baudrate_supported (baud : Z) :
  supported baud = true ->
  exists b, baudrate_to_speed_t baud = (b, []) /\ In b speed_codes.
Proof.
  unfold supported. rewrite existsb_exists. intros (r & Hin & E).
  apply Z.eqb_eq in E. subst r.
  unfold supported_baud_rates in Hin. simpl in Hin.
  repeat (destruct Hin as [<- | Hin];
          [eexists; split; [reflexivity | unfold speed_codes; simpl; tauto] | ]).
  contradiction.
Qed.

Lemma baudrate_unsupported (baud : Z) :
  supported baud = false ->
  baudrate_to_speed_t baud = (to_speed_t (-1), [InvalidBaud baud]).
Proof.
  intros E. unfold baudrate_to_speed_t.
  destruct baud as [|p|p]; try reflexivity.
  repeat (match goal with
          | |- context [match ?q with xI _ => _ | xO _ => _ | xH => _ end] =>
              destruct q
          end; try reflexivity);
    exfalso; vm_compute in E; discriminate E.
Qed.

(** ** The assignments of the raw-mode block *)

Lemma header_ok_inv :
  header_ok = true ->
  Z.land CS8 CSIZE = CS8 /\ Z.land CS8 PARENB = 0 /\ Z.land CS8 CSTOPB = 0 /\
  Z.land CRTSCTS CSIZE = 0 /\
  Z.land (Z.lor CREAD CLOCAL) PARENB = 0 /\
  Z.land (Z.lor CREAD CLOCAL) CSTOPB = 0 /\
  Z.land (Z.lor CREAD CLOCAL) CSIZE = 0 /\
  Z.land (Z.lor CREAD CLOCAL) CRTSCTS = 0 /\
  VTIME <> VMIN /\ (VTIME < NCCS)%nat /\ (VMIN < NCCS)%nat /\
  speed_valid (to_speed_t (-1)) = false.
Proof.
  unfold header_ok. rewrite !andb_true_iff, !negb_true_iff, !Z.eqb_eq.
  rewrite Nat.eqb_neq, !Nat.ltb_lt. tauto.
Qed.

Lemma cflag_set_raw_fields (t : termios) :
  c_cflag (set_raw_fields t) =
  Z.lor (Z.land (Z.lor (Z.land (Z.land (Z.land (c_cflag t)
    (Z.lnot PARENB)) (Z.lnot CSTOPB)) (Z.lnot CSIZE)) CS8) (Z.lnot CRTSCTS))
    (Z.lor CREAD CLOCAL).
Proof. reflexivity. Qed.

Lemma set_raw_fields_cflag (t : termios) :
  header_ok = true ->
  eight_data_bits (set_raw_fields t) = true /\
  no_parity (set_raw_fields t) = true /\
  one_stop_bit (set_raw_fields t) = true /\
  no_hw_flow_control (set_raw_fields t) = true /\
  local_line (set_raw_fields t) = true /\
  receiver_enabled (set_raw_fields t) = true.
Proof.
  intros Hok. apply header_ok_inv in Hok.
  destruct Hok as (Hcs8 & Hcs8p & Hcs8s & Hrts & Hp & Hs & Hsz & Hr & _).
  unfold eight_data_bits, no_parity, one_stop_bit, no_hw_flow_control,
    local_line, receiver_enabled.
  rewrite !Z.eqb_eq, cflag_set_raw_fields.
  repeat split.
  - rewrite (set_keeps_field _ _ _ Hsz), (clear_keeps_field _ _ _ Hrts).
    rewrite set_in_field by apply cleared. exact Hcs8.
  - rewrite (set_keeps_field _ _ _ Hp). apply clear_keeps_zero.
    rewrite (set_keeps_field _ _ _ Hcs8p).
    do 2 apply clear_keeps_zero. apply cleared.
  - rewrite (set_keeps_field _ _ _ Hs). apply clear_keeps_zero.
    rewrite (set_keeps_field _ _ _ Hcs8s).
    apply clear_keeps_zero. apply cleared.
  - rewrite (set_keeps_field _ _ _ Hr). apply cleared.
  - apply set_right.
  - apply set_left.
Qed.

Lemma set_raw_fields_other_flags (t : termios) :
  no_sw_flow_control (set_raw_fields t) = true /\
  no_line_processing (set_raw_fields t) = true /\
  no_output_processing (set_raw_fields t) = true /\
  no_input_special_handling (set_raw_fields t) = true.
Proof.
  unfold no_sw_flow_control, no_line_processing, no_output_processing,
    no_input_special_handling.
  rewrite !andb_true_iff, !Z.eqb_eq. cbn [set_raw_fields c_iflag c_oflag
    c_lflag with_cflag with_lflag with_iflag with_oflag with_cc].
  repeat split; repeat (first [apply cleared | apply clear_keeps_zero]).
Qed.

Lemma set_raw_fields_raw (t : termios) :
  header_ok = true -> raw_mode (set_raw_fields t) = true.
Proof.
  intros Hok. unfold raw_mode.
  destruct (set_raw_fields_cflag t Hok) as (-> & -> & -> & -> & -> & ->).
  destruct (set_raw_fields_other_flags t) as (-> & -> & -> & ->).
  reflexivity.
Qed.

Lemma set_raw_fields_speed (t : termios) :
  c_ospeed (set_raw_fields t) = c_ospeed t /\
  c_ispeed (set_raw_fields t) = c_ispeed t.
Proof. split; reflexivity. Qed.

Lemma set_raw_fields_cc (t : termios) :
  c_cc (set_raw_fields t) = <[VMIN := 1]> (<[VTIME := 10]> (c_cc t)).
Proof. reflexivity. Qed.


(** What [configure_serial_port] does once [tcgetattr] has succeeded. *)
Lemma configure_after_get (fd : serial_dev) (baud : Z) :
  tcgetattr_ok fd = true ->
  tcsetattr_ok fd = true ->
  configure_serial_port fd baud =
  let b := fst (baudrate_to_speed_t baud) in
  mk_configured
    (mk_dev (set_raw_fields (fst (cfsetispeed (fst (cfsetospeed (line fd) b)) b)))
            true true (S (commits fd)))
    0 (snd (baudrate_to_speed_t baud)).
Proof.
  intros Hg Hs. unfold configure_serial_port, tcgetattr, tcsetattr.
  rewrite Hg. destruct (baudrate_to_speed_t baud) as [b err].
  rewrite Hs. reflexivity.
Qed.

(** The failure paths leave the device alone. *)
Lemma configure_get_fails (fd : serial_dev) (baud : Z) :
  tcgetattr_ok fd = false ->
  configure_serial_port fd baud = mk_configured fd (-1) [PerrorTcgetattr].
Proof.
  intros Hg. unfold configure_serial_port, tcgetattr. rewrite Hg. reflexivity.
Qed.

Lemma configure_set_fails (fd : serial_dev) (baud : Z) :
  tcgetattr_ok fd = true ->
  tcsetattr_ok fd = false ->
  cfg_dev (configure_serial_port fd baud) = fd /\
  cfg_ret (configure_serial_port fd baud) = -1.
Proof.
  intros Hg Hs. unfold configure_serial_port, tcgetattr, tcsetattr.
  rewrite Hg. destruct (baudrate_to_speed_t baud) as [b err].
  rewrite Hs. split; reflexivity.
Qed.

(** C3. For every supported baud rate, on a device whose attributes can
    be read and committed, [configure_serial_port] returns 0 without a
    diagnostic and leaves the line in raw mode: 8 data bits, no parity,
    one stop bit, no hardware or software flow control, local line,
    receiver enabled, no canonical/echo/signal processing, no output
    post-processing, no special handling of input characters.  The line
    afterwards is the local [tty] (the attributes read, the two speeds set
    to the code of the requested rate, the raw-mode assignments applied),
    committed by exactly one [tcsetattr]. *)
Theorem configure_supported_raw_mode (fd : serial_dev) (baud : Z) :
  header_ok = true ->
  supported baud = true ->
  tcgetattr_ok fd = true ->
  tcsetattr_ok fd = true ->
  let r := configure_serial_port fd baud in
  cfg_ret r = 0 /\
  cfg_stderr r = [] /\
  raw_mode (line (cfg_dev r)) = true /\
  (exists b, In b speed_codes /\
     baudrate_to_speed_t baud = (b, []) /\
     line (cfg_dev r) = set_raw_fields (with_ispeed (with_ospeed (line fd) b) b)) /\
  commits (cfg_dev r) = S (commits fd).
Proof.
  intros Hok Hsup Hg Hs r. subst r.
  rewrite (configure_after_get fd baud Hg Hs).
  destruct (baudrate_supported baud Hsup) as (b & Eb & Hin).
  rewrite Eb. cbn [fst snd cfg_ret cfg_stderr cfg_dev line commits].
  unfold cfsetospeed, cfsetispeed. rewrite (speed_code_valid b Hin).
  cbn [fst].
  repeat split.
  - apply set_raw_fields_raw, Hok.
  - exists b. repeat split; assumption.
Qed.


(** C1, as the code has it.  For a baud rate that is not in the table, on
    a device whose attributes can be read and committed,
    [configure_serial_port] prints the diagnostic of [baudrate_to_speed_t]
    and then carries on: both [cfset*speed] calls refuse the error value,
    their results are dropped, the raw-mode assignments are applied to the
    attributes read, the result is committed, and 0 is returned.  The
    line keeps the speed it had. *)
Theorem configure_unsupported_baud_returns_0 (fd : serial_dev) (baud : Z) :
  header_ok = true ->
  supported baud = false ->
  tcgetattr_ok fd = true ->
  tcsetattr_ok fd = true ->
  let r := configure_serial_port fd baud in
  cfg_ret r = 0 /\
  cfg_stderr r = [InvalidBaud baud] /\
  line (cfg_dev r) = set_raw_fields (line fd) /\
  c_ospeed (line (cfg_dev r)) = c_ospeed (line fd) /\
  c_ispeed (line (cfg_dev r)) = c_ispeed (line fd) /\
  commits (cfg_dev r) = S (commits fd).
Proof.
  intros Hok Hun Hg Hs r. subst r.
  apply header_ok_inv in Hok.
  destruct Hok as (_ & _ & _ & _ & _ & _ & _ & _ & _ & _ & _ & Hinv).
  rewrite (configure_after_get fd baud Hg Hs).
  rewrite (baudrate_unsupported baud Hun).
  cbn [fst snd cfg_ret cfg_stderr cfg_dev line commits].
  unfold cfsetospeed, cfsetispeed. rewrite Hinv. cbn [fst].
  repeat split.
Qed.

End Configurator.

Lemma configure_supported_raw_mode_witness :
  let r := configure_serial_port (H := linux) cooked_dev 115200 in
  cfg_ret r = 0 /\ raw_mode (H := linux) (line (cfg_dev r)) = true /\
  commits (cfg_dev r) = 1%nat.
Proof.
  pose proof (configure_supported_raw_mode (H := linux) cooked_dev 115200
                eq_refl eq_refl eq_refl eq_refl) as W.
  cbv zeta in W. destruct W as (W1 & _ & W2 & _ & W3).
  cbv zeta. exact (conj W1 (conj W2 W3)).
Defined.


Lemma configure_unsupported_baud_returns_0_witness :
  let r := configure_serial_port (H := linux) cooked_dev 12345 in
  cfg_ret r = 0 /\
  line (cfg_dev r) <> line cooked_dev /\
  c_ospeed (line (cfg_dev r)) = 15.
Proof.
  pose proof (configure_unsupported_baud_returns_0 (H := linux) cooked_dev 12345
                eq_refl eq_refl eq_refl eq_refl) as W.
  cbv zeta in W. destruct W as (W1 & _ & W2 & W3 & _).
  cbv zeta. split; [ | split].
  - exact W1.
  - rewrite W2. intros E. apply (f_equal c_lflag) in E. vm_compute in E.
    discriminate E.
  - rewrite W3. reflexivity.
Defined.

End TermiosFacts.

(* ===================================================================== *)
(** * Facts about the forwarding engine                                   *)
(* ===================================================================== *)

Module ForwarderFacts.
Import Forwarder.

(** ** Traces *)

Lemma requested_app (d : fd) (evs evs' : list event) :
  requested d (evs ++ evs') = requested d evs ++ requested d evs'.
Proof.
  induction evs as [|e evs IH]; [reflexivity|].
  destruct e; simpl; try assumption.
  destruct (fd_eqb to d); simpl; congruence.
Qed.

Lemma delivered_app (d : fd) (evs evs' : list event) :
  delivered d (evs ++ evs') = delivered d evs ++ delivered d evs'.
Proof.
  induction evs as [|e evs IH]; [reflexivity|].
  destruct e; simpl; try assumption.
  destruct (fd_eqb to d); [rewrite IH, app_assoc|]; done.
Qed.

Lemma requested_without_printf (d : fd) (evs : list event) :
  requested d (without_printf evs) = requested d evs.
Proof.
  induction evs as [|e evs IH]; [reflexivity|].
  destruct e; simpl; try assumption.
  destruct (fd_eqb to d); simpl; congruence.
Qed.

Lemma delivered_without_printf (d : fd) (evs : list event) :
  delivered d (without_printf evs) = delivered d evs.
Proof.
  induction evs as [|e evs IH]; [reflexivity|].
  destruct e; simpl; try assumption.
  destruct (fd_eqb to d); simpl; congruence.
Qed.

Lemma without_printf_app (evs evs' : list event) :
  without_printf (evs ++ evs') = without_printf evs ++ without_printf evs'.
Proof. apply List.filter_app. Qed.

Lemma fd_eqb_refl (d : fd) : fd_eqb d d = true.
Proof. destruct d; reflexivity. Qed.

Lemma fd_eqb_neq (d d' : fd) : d <> d' -> fd_eqb d d' = false.
Proof. destruct d, d'; simpl; congruence. Qed.

(** ** The read call *)

Lemma cells_app (l k : list Z) : cells (l ++ k) = cells l ++ cells k.
Proof. apply map_app. Qed.

Lemma length_cells (l : list Z) : length (cells l) = length l.
Proof. apply length_map. Qed.

Lemma os_read_length (len : nat) (r : input) (buffer : list cell) :
  input_ok len r = true -> length buffer = len ->
  length (fst (os_read r buffer)) = len.
Proof.
  unfold input_ok, os_read. intros Hok Hlen. simpl.
  rewrite length_app, length_cells, length_drop.
  destruct (0 <? in_ret r).
  - apply andb_true_iff in Hok as [_ Hle]. apply Nat.leb_le in Hle. lia.
  - apply Nat.eqb_eq in Hok. lia.
Qed.

(** The first [bytes_read] cells of the buffer after a read that returned
    [bytes_read > 0] are the bytes delivered. *)
Lemma os_read_payload (len : nat) (r : input) (buffer : list cell) :
  input_ok len r = true -> (0 <? in_ret r) = true ->
  take (Z.to_nat (in_ret r)) (fst (os_read r buffer)) = cells (in_data r).
Proof.
  unfold input_ok, os_read. intros Hok Hpos. rewrite Hpos in Hok. simpl.
  apply andb_true_iff in Hok as [Hn _]. apply Z.eqb_eq in Hn.
  apply take_app_length'. rewrite length_cells, Hn. lia.
Qed.

(** ** One iteration, seen without its diagnostic output *)

Lemma tcp_to_serial_forwards (verbose : bool) :
  forwards_to serial_port_fd (tcp_to_serial_iter verbose).
Proof.
  intros buffer os. unfold tcp_to_serial_iter, os_read. simpl.
  destruct (0 <? in_ret (rx os)); [|reflexivity].
  destruct (wr os =? in_ret (rx os)), verbose; simpl; split; reflexivity.
Qed.

Lemma serial_to_tcp_forwards : forwards_to STDOUT_FILENO serial_to_tcp_iter.
Proof.
  intros buffer os. unfold serial_to_tcp_iter, os_read. simpl.
  destruct (0 <? in_ret (rx os)); [|reflexivity].
  destruct (wr os =? in_ret (rx os)); simpl; split; reflexivity.
Qed.

(** ** The loop *)

Lemma run_loop_cons iter buffer os oss :
  run_loop iter buffer (os :: oss) =
  match snd (iter buffer os) with
  | Running buffer' =>
      (fst (iter buffer os) ++ fst (run_loop iter buffer' oss),
       snd (run_loop iter buffer' oss))
  | st => (fst (iter buffer os), st)
  end.
Proof.
  simpl. destruct (iter buffer os) as [evs st]. simpl.
  destruct st; try reflexivity.
  destruct (run_loop iter buffer0 oss); reflexivity.
Qed.

Lemma run_loop_app iter buffer oss more evs buffer' :
  run_loop iter buffer oss = (evs, Running buffer') ->
  run_loop iter buffer (oss ++ more) =
  (evs ++ fst (run_loop iter buffer' more), snd (run_loop iter buffer' more)).
Proof.
  revert buffer evs. induction oss as [|os oss IH]; intros buffer evs E.
  - simpl in E. injection E as <- <-. simpl.
    destruct (run_loop iter buffer more); reflexivity.
  - rewrite <- app_comm_cons, run_loop_cons. rewrite run_loop_cons in E.
    destruct (snd (iter buffer os)) as [|b| |s]; try discriminate E.
    injection E as <- E2.
    rewrite (IH b (fst (run_loop iter b oss))).
    + cbn [fst snd]. rewrite app_assoc. reflexivity.
    + rewrite <- E2. destruct (run_loop iter b oss); reflexivity.
Qed.

Lemma run_loop_forwards (d : fd) iter (len : nat) :
  forwards_to d iter ->
  forall oss buffer,
    Forall (fun os => input_ok len (rx os) = true) oss ->
    let r := run_loop iter buffer oss in
    requested d (fst r) = List.map cells (consumed oss) /\
    (forall d', d' <> d -> requested d' (fst r) = []) /\
    (has_exited (snd r) = false ->
     delivered d (fst r) = cells (concat (consumed oss))).
Proof.
  intros Hiter oss. induction oss as [|os oss IH]; intros buffer Hok r; subst r.
  - simpl. auto.
  - inversion Hok as [|? ? Hos Hoss]; subst.
    specialize (Hiter buffer os). cbv zeta in Hiter.
    rewrite run_loop_cons. cbn [consumed].
    destruct (0 <? in_ret (rx os)) eqn:Hpos.
    + destruct Hiter as [Hevs Hst].
      rewrite (os_read_payload len _ _ Hos Hpos) in Hevs.
      rewrite Hst.
      destruct (wr os =? in_ret (rx os)) eqn:Hwr; cbn [negb fst snd].
      * specialize (IH (fst (os_read (rx os) buffer)) Hoss). cbv zeta in IH.
        destruct IH as (IH1 & IH2 & IH3).
        rewrite requested_app, delivered_app.
        rewrite <- (requested_without_printf d (fst (iter buffer os))).
        rewrite <- (delivered_without_printf d (fst (iter buffer os))).
        rewrite Hevs. cbn [requested delivered]. rewrite fd_eqb_refl.
        rewrite IH1. cbn [concat List.map].
        repeat split.
        -- intros d' Hd'. rewrite requested_app, (IH2 d' Hd').
           rewrite <- (requested_without_printf d' (fst (iter buffer os))).
           rewrite Hevs. cbn [requested].
           rewrite (fd_eqb_neq d d') by congruence. reflexivity.
        -- intros Hex. rewrite (IH3 Hex), app_nil_r, cells_app.
           apply Z.eqb_eq in Hwr. rewrite Hwr.
           rewrite take_ge; [reflexivity|].
           unfold input_ok in Hos. rewrite Hpos in Hos.
           apply andb_true_iff in Hos as [Hn _]. apply Z.eqb_eq in Hn.
           rewrite length_cells. lia.
      * rewrite <- (requested_without_printf d (fst (iter buffer os))).
        rewrite Hevs. cbn [requested has_exited]. rewrite fd_eqb_refl.
        repeat split; [|discriminate].
        intros d' Hd'.
        rewrite <- (requested_without_printf d' (fst (iter buffer os))).
        rewrite Hevs. cbn [requested].
        rewrite (fd_eqb_neq d d') by congruence. reflexivity.
    + rewrite Hiter. cbn [fst snd]. simpl. auto.
Qed.

(** On a run in which every read delivers data and every write is
    complete, followed by a read that returns 0 or less, what is consumed
    is all the data read. *)
Lemma consumed_until_end (oss : list turn) (last : turn) (rest : list turn) :
  Forall (fun os => 0 < in_ret (rx os) /\ wr os = in_ret (rx os)) oss ->
  in_ret (rx last) <= 0 ->
  consumed (oss ++ last :: rest) = List.map (fun os => in_data (rx os)) oss.
Proof.
  intros Hall Hlast. induction Hall as [|os oss [Hpos Hwr] _ IH]; simpl.
  - destruct (0 <? in_ret (rx last)) eqn:E; [|reflexivity].
    apply Z.ltb_lt in E. lia.
  - apply Z.ltb_lt in Hpos. rewrite Hpos.
    apply Z.eqb_eq in Hwr. rewrite Hwr. simpl. rewrite IH. reflexivity.
Qed.

Lemma run_loop_stops (d : fd) iter :
  forwards_to d iter ->
  forall buffer os rest,
    (in_ret (rx os) <= 0 -> run_loop iter buffer (os :: rest) = ([], Returned)) /\
    (0 < in_ret (rx os) -> wr os <> in_ret (rx os) ->
     snd (run_loop iter buffer (os :: rest)) = Exited 1 /\
     without_printf (fst (run_loop iter buffer (os :: rest))) =
       [EvWrite d (take (Z.to_nat (in_ret (rx os))) (fst (os_read (rx os) buffer)))
          (wr os); EvPerror; EvExit 1]).
Proof.
  intros Hiter buffer os rest. specialize (Hiter buffer os). cbv zeta in Hiter.
  rewrite run_loop_cons. split.
  - intros Hle. destruct (0 <? in_ret (rx os)) eqn:E.
    + apply Z.ltb_lt in E. lia.
    + rewrite Hiter. reflexivity.
  - intros Hpos Hne. apply Z.ltb_lt in Hpos. rewrite Hpos in Hiter.
    apply Z.eqb_neq in Hne. rewrite Hne in Hiter.
    destruct Hiter as [Hevs Hst]. rewrite Hst. cbn [fst snd].
    split; [reflexivity | exact Hevs].
Qed.

Lemma run_loop_then_stops (d : fd) iter :
  forwards_to d iter ->
  forall buffer0 oss evs buffer os rest,
    run_loop iter buffer0 oss = (evs, Running buffer) ->
    (in_ret (rx os) <= 0 ->
     run_loop iter buffer0 (oss ++ os :: rest) = (evs, Returned)) /\
    (0 < in_ret (rx os) -> wr os <> in_ret (rx os) ->
     snd (run_loop iter buffer0 (oss ++ os :: rest)) = Exited 1 /\
     without_printf (fst (run_loop iter buffer0 (oss ++ os :: rest))) =
       without_printf evs ++
       [EvWrite d (take (Z.to_nat (in_ret (rx os))) (fst (os_read (rx os) buffer)))
          (wr os); EvPerror; EvExit 1]).
Proof.
  intros Hiter buffer0 oss evs buffer os rest E.
  rewrite (run_loop_app _ _ _ (os :: rest) _ _ E).
  destruct (run_loop_stops d iter Hiter buffer os rest) as [Hend Hshort].
  split.
  - intros Hle. rewrite (Hend Hle). cbn [fst snd]. rewrite app_nil_r. reflexivity.
  - intros Hpos Hne. destruct (Hshort Hpos Hne) as [Hst Hevs].
    cbn [fst snd]. rewrite without_printf_app, Hevs. split; [exact Hst | reflexivity].
Qed.

(** A run in which every read delivers data and every write is complete,
    ended by a read that returns 0 or less: the thread returns, and what
    reached [d] is the concatenation of what was read. *)
Lemma clean_run_returns (d : fd) iter (len : nat) :
  forwards_to d iter ->
  forall oss buffer last rest,
    Forall (fun os => input_ok len (rx os) = true /\
                      0 < in_ret (rx os) /\ wr os = in_ret (rx os)) oss ->
    in_ret (rx last) <= 0 ->
    snd (run_loop iter buffer (oss ++ last :: rest)) = Returned /\
    delivered d (fst (run_loop iter buffer (oss ++ last :: rest))) =
      cells (concat (List.map (fun os => in_data (rx os)) oss)).
Proof.
  intros Hiter oss. induction oss as [|os oss IH]; intros buffer last rest Hall Hlast.
  - destruct (run_loop_stops d iter Hiter buffer last rest) as [Hend _].
    simpl app. rewrite (Hend Hlast). split; reflexivity.
  - inversion Hall as [|? ? (Hok & Hpos & Hwr) Hall']; subst.
    rewrite <- app_comm_cons, run_loop_cons.
    pose proof (Hiter buffer os) as Hos. cbv zeta in Hos.
    assert (Hp : (0 <? in_ret (rx os)) = true) by (apply Z.ltb_lt, Hpos).
    rewrite Hp in Hos. rewrite Hwr, Z.eqb_refl in Hos.
    destruct Hos as [Hevs Hst]. rewrite Hst. cbn [fst snd].
    destruct (IH (fst (os_read (rx os) buffer)) last rest Hall' Hlast) as [IH1 IH2].
    split; [exact IH1|].
    rewrite delivered_app, IH2.
    rewrite <- (delivered_without_printf d (fst (iter buffer os))), Hevs.
    cbn [delivered]. rewrite fd_eqb_refl, app_nil_r.
    rewrite (os_read_payload len _ _ Hok Hp).
    cbn [List.map concat]. rewrite cells_app. f_equal.
    apply take_ge. rewrite length_cells.
    unfold input_ok in Hok. rewrite Hp in Hok.
    apply andb_true_iff in Hok as [Hn _]. apply Z.eqb_eq in Hn. lia.
Qed.

Lemma tcp_to_serial_clean_run (verbose : bool) (oss : list turn) (last : turn) :
  Forall (fun os => input_ok RX_BUFFER_SIZE (rx os) = true /\
                    0 < in_ret (rx os) /\ wr os = in_ret (rx os)) oss ->
  in_ret (rx last) <= 0 ->
  snd (tcp_to_serial_thread verbose (oss ++ [last])) = Returned /\
  delivered serial_port_fd (fst (tcp_to_serial_thread verbose (oss ++ [last]))) =
    cells (concat (List.map (fun os => in_data (rx os)) oss)).
Proof.
  apply (clean_run_returns serial_port_fd _ RX_BUFFER_SIZE
           (tcp_to_serial_forwards verbose)).
Qed.

Lemma serial_to_tcp_clean_run (oss : list turn) (last : turn) :
  Forall (fun os => input_ok TX_BUFFER_SIZE (rx os) = true /\
                    0 < in_ret (rx os) /\ wr os = in_ret (rx os)) oss ->
  in_ret (rx last) <= 0 ->
  snd (serial_to_tcp_thread (oss ++ [last])) = Returned /\
  delivered STDOUT_FILENO (fst (serial_to_tcp_thread (oss ++ [last]))) =
    cells (concat (List.map (fun os => in_data (rx os)) oss)).
Proof.
  apply (clean_run_returns STDOUT_FILENO _ TX_BUFFER_SIZE serial_to_tcp_forwards).
Qed.

(** ** The process *)

Lemma dead_process_is_stuck (verbose : bool) (p q : process) :
  alive p = false -> ~ step verbose p q.
Proof.
  intros Hdead Hstep. destruct Hstep; congruence.
Qed.

Lemma exited_thread_kills (p : process) (s : Z) :
  tcp_thread p = Exited s \/ serial_thread p = Exited s -> alive p = false.
Proof.
  unfold alive. intros [-> | ->]; simpl; [reflexivity | apply andb_false_r].
Qed.

(** C2. What a direction reads it writes unchanged.  Direction A: the
    payloads of the write calls of [tcp_to_serial_thread] on the serial
    descriptor are, in order, exactly the byte sequences its [recv] calls
    delivered, one write per [recv], and it writes to no other descriptor;
    as long as no write fell short, the bytes that reached the serial line
    are the concatenation of what was received.  Direction B: the same for
    [serial_to_tcp_thread] from the serial descriptor to standard output,
    with no write or send on the TCP socket. *)
Theorem forwarded_verbatim (verbose : bool) (from_tcp from_serial : list turn) :
  Forall (fun os => input_ok RX_BUFFER_SIZE (rx os) = true) from_tcp ->
  Forall (fun os => input_ok TX_BUFFER_SIZE (rx os) = true) from_serial ->
  let a := tcp_to_serial_thread verbose from_tcp in
  let b := serial_to_tcp_thread from_serial in
  (requested serial_port_fd (fst a) = List.map cells (consumed from_tcp) /\
   requested tcp_socket_fd (fst a) = [] /\
   requested STDOUT_FILENO (fst a) = [] /\
   (has_exited (snd a) = false ->
    delivered serial_port_fd (fst a) = cells (concat (consumed from_tcp)))) /\
  (requested STDOUT_FILENO (fst b) = List.map cells (consumed from_serial) /\
   requested tcp_socket_fd (fst b) = [] /\
   requested serial_port_fd (fst b) = [] /\
   (has_exited (snd b) = false ->
    delivered STDOUT_FILENO (fst b) = cells (concat (consumed from_serial)))).
Proof.
  intros Ha Hb a b. subst a b. unfold tcp_to_serial_thread, serial_to_tcp_thread.
  split.
  - destruct (run_loop_forwards serial_port_fd _ RX_BUFFER_SIZE
                (tcp_to_serial_forwards verbose) from_tcp
                (uninitialised RX_BUFFER_SIZE) Ha) as (H1 & H2 & H3).
    repeat split; [exact H1 | apply H2; discriminate
                  | apply H2; discriminate | exact H3].
  - destruct (run_loop_forwards STDOUT_FILENO _ TX_BUFFER_SIZE
                serial_to_tcp_forwards from_serial
                (uninitialised TX_BUFFER_SIZE) Hb) as (H1 & H2 & H3).
    repeat split; [exact H1 | apply H2; discriminate
                  | apply H2; discriminate | exact H3].
Qed.

Lemma forwarded_verbatim_witness :
  delivered serial_port_fd
    (fst (tcp_to_serial_thread true
       [mk_turn (mk_input 2 [254; 30]) 2; mk_turn (mk_input 1 [255]) 1;
        mk_turn (mk_input 1 [30]) 1; mk_turn (mk_input 0 []) 0]))
  = [Some 254; Some 30; Some 255; Some 30] /\
  requested STDOUT_FILENO
    (fst (serial_to_tcp_thread
       [mk_turn (mk_input 3 [68; 79; 79]) 3; mk_turn (mk_input 1 [77]) 1]))
  = [[Some 68; Some 79; Some 79]; [Some 77]].
Proof.
  assert (Ha : Forall (fun os => input_ok RX_BUFFER_SIZE (rx os) = true)
            [mk_turn (mk_input 2 [254; 30]) 2; mk_turn (mk_input 1 [255]) 1;
             mk_turn (mk_input 1 [30]) 1; mk_turn (mk_input 0 []) 0])
    by (repeat constructor).
  assert (Hb : Forall (fun os => input_ok TX_BUFFER_SIZE (rx os) = true)
            [mk_turn (mk_input 3 [68; 79; 79]) 3; mk_turn (mk_input 1 [77]) 1])
    by (repeat constructor).
  pose proof (forwarded_verbatim true _ _ Ha Hb) as W. cbv zeta in W.
  destruct W as ((_ & _ & _ & Wa) & (Wb & _)).
  split.
  - apply Wa. reflexivity.
  - exact Wb.
Defined.

(** C4. In either direction, from any point at which the loop is running:
    a read that returns 0 or less makes the thread return, with nothing
    further done and whatever the kernel would have answered next left
    untouched; a read that returns [n > 0] followed by a write that
    returns anything but [n] (fewer bytes, or -1) gives exactly one write
    call for that chunk, then [perror] and [exit(1)].  A process in which
    a thread has called [exit] takes no further step. *)
Theorem read_end_returns_short_write_exits (verbose : bool)
    (os : turn) (rest : list turn) :
  (forall oss evs buffer,
     tcp_to_serial_thread verbose oss = (evs, Running buffer) ->
     (in_ret (rx os) <= 0 ->
      tcp_to_serial_thread verbose (oss ++ os :: rest) = (evs, Returned)) /\
     (0 < in_ret (rx os) -> wr os <> in_ret (rx os) ->
      snd (tcp_to_serial_thread verbose (oss ++ os :: rest)) = Exited 1 /\
      without_printf (fst (tcp_to_serial_thread verbose (oss ++ os :: rest))) =
        without_printf evs ++
        [EvWrite serial_port_fd
           (take (Z.to_nat (in_ret (rx os))) (fst (os_read (rx os) buffer)))
           (wr os); EvPerror; EvExit 1])) /\
  (forall oss evs buffer,
     serial_to_tcp_thread oss = (evs, Running buffer) ->
     (in_ret (rx os) <= 0 ->
      serial_to_tcp_thread (oss ++ os :: rest) = (evs, Returned)) /\
     (0 < in_ret (rx os) -> wr os <> in_ret (rx os) ->
      snd (serial_to_tcp_thread (oss ++ os :: rest)) = Exited 1 /\
      without_printf (fst (serial_to_tcp_thread (oss ++ os :: rest))) =
        without_printf evs ++
        [EvWrite STDOUT_FILENO
           (take (Z.to_nat (in_ret (rx os))) (fst (os_read (rx os) buffer)))
           (wr os); EvPerror; EvExit 1])) /\
  (forall p q s,
     tcp_thread p = Exited s \/ serial_thread p = Exited s ->
     ~ step verbose p q).
Proof.
  split; [|split].
  - intros oss evs buffer E.
    exact (run_loop_then_stops serial_port_fd _ (tcp_to_serial_forwards verbose)
             _ oss evs buffer os rest E).
  - intros oss evs buffer E.
    exact (run_loop_then_stops STDOUT_FILENO _ serial_to_tcp_forwards
             _ oss evs buffer os rest E).
  - intros p q s Hex. apply dead_process_is_stuck.
    exact (exited_thread_kills p s Hex).
Qed.

Lemma read_end_returns_short_write_exits_witness :
  tcp_to_serial_thread true
    ([mk_turn (mk_input 2 [254; 30]) 2] ++ mk_turn (mk_input 0 []) 0 :: [])
  = ([EvPrintf (Some 254) (Some 30); EvWrite serial_port_fd [Some 254; Some 30] 2],
     Returned) /\
  snd (serial_to_tcp_thread ([] ++ mk_turn (mk_input 3 [68; 79; 79]) 2 :: []))
  = Exited 1.
Proof.
  split.
  - pose proof (read_end_returns_short_write_exits true
                  (mk_turn (mk_input 0 []) 0) []) as (Wa & _ & _).
    refine (proj1 (Wa [mk_turn (mk_input 2 [254; 30]) 2] _ _ eq_refl) _).
    simpl. lia.
  - pose proof (read_end_returns_short_write_exits true
                  (mk_turn (mk_input 3 [68; 79; 79]) 2) []) as (_ & Wb & _).
    refine (proj1 (proj2 (Wb [] _ _ eq_refl) _ _)); simpl; lia.
Defined.

(** ** Verbose mode *)

Lemma tcp_to_serial_iter_verbose (buffer : list cell) (os : turn) :
  without_printf (fst (tcp_to_serial_iter true buffer os)) =
    fst (tcp_to_serial_iter false buffer os) /\
  snd (tcp_to_serial_iter true buffer os) =
    snd (tcp_to_serial_iter false buffer os).
Proof.
  unfold tcp_to_serial_iter, os_read. simpl.
  destruct (0 <? in_ret (rx os)); [|split; reflexivity].
  destruct (wr os =? in_ret (rx os)); split; reflexivity.
Qed.

Lemma run_loop_verbose (oss : list turn) :
  forall buffer,
    without_printf (fst (run_loop (tcp_to_serial_iter true) buffer oss)) =
      fst (run_loop (tcp_to_serial_iter false) buffer oss) /\
    snd (run_loop (tcp_to_serial_iter true) buffer oss) =
      snd (run_loop (tcp_to_serial_iter false) buffer oss).
Proof.
  induction oss as [|os oss IH]; intros buffer; [split; reflexivity|].
  rewrite !run_loop_cons.
  destruct (tcp_to_serial_iter_verbose buffer os) as [Hevs Hst].
  rewrite Hst.
  destruct (snd (tcp_to_serial_iter false buffer os)) as [|b| |st];
    cbn [fst snd]; try (split; [exact Hevs | reflexivity]).
  destruct (IH b) as [IH1 IH2].
  rewrite without_printf_app, Hevs, IH1, IH2. split; reflexivity.
Qed.

(** C8. Two runs of Direction A against the same answers of the kernel,
    one verbose and one not, differ in the [printf] lines only: with those
    removed the traces are equal, so the write calls on the serial
    descriptor, their payloads, their order and the bytes that reach the
    line are the same, and the thread ends the same way. *)
Theorem verbose_changes_no_forwarding (oss : list turn) :
  let v := tcp_to_serial_thread true oss in
  let q := tcp_to_serial_thread false oss in
  without_printf (fst v) = fst q /\
  snd v = snd q /\
  requested serial_port_fd (fst v) = requested serial_port_fd (fst q) /\
  delivered serial_port_fd (fst v) = delivered serial_port_fd (fst q).
Proof.
  intros v q. subst v q. unfold tcp_to_serial_thread.
  destruct (run_loop_verbose oss (uninitialised RX_BUFFER_SIZE)) as [Hevs Hst].
  repeat split; try assumption.
  - rewrite <- Hevs. symmetry. apply requested_without_printf.
  - rewrite <- Hevs. symmetry. apply delivered_without_printf.
Qed.

(** C9. In verbose mode, when [recv] delivers exactly one byte [b], the
    [printf] prints [buffer[0] = b] and [buffer[1]] as it was before the
    call, a cell that this [recv] did not fill, while the write that
    follows has the one byte [b] as its payload.  On the first iteration
    that cell was never written; after a two-byte chunk it still holds
    that chunk's second byte. *)
Theorem verbose_log_reads_unfilled_cell (buffer : list cell) (b w : Z)
    (rest : list turn) :
  let os := mk_turn (mk_input 1 [b]) w in
  (exists tail,
     fst (tcp_to_serial_iter true buffer os) =
       EvPrintf (Some b) (index buffer 1) ::
       EvWrite serial_port_fd [Some b] w :: tail) /\
  (exists tail,
     fst (tcp_to_serial_thread true (os :: rest)) =
       EvPrintf (Some b) None ::
       EvWrite serial_port_fd [Some b] w :: tail) /\
  (forall a0 a1, exists tail,
     fst (tcp_to_serial_thread true
            (mk_turn (mk_input 2 [a0; a1]) 2 :: os :: rest)) =
       EvPrintf (Some a0) (Some a1) ::
       EvWrite serial_port_fd [Some a0; Some a1] 2 ::
       EvPrintf (Some b) (Some a1) ::
       EvWrite serial_port_fd [Some b] w :: tail).
Proof.
  intros os. subst os.
  assert (Hiter : forall buf, exists tail,
            fst (tcp_to_serial_iter true buf (mk_turn (mk_input 1 [b]) w)) =
              EvPrintf (Some b) (index buf 1) ::
              EvWrite serial_port_fd [Some b] w :: tail /\
            (snd (tcp_to_serial_iter true buf (mk_turn (mk_input 1 [b]) w)) =
               Exited 1 \/
             exists buf', snd (tcp_to_serial_iter true buf
                                (mk_turn (mk_input 1 [b]) w)) = Running buf')).
  { intros buf. unfold tcp_to_serial_iter, os_read, index.
    cbn [rx wr in_ret in_data cells List.map length Z.ltb Z.compare Z.to_nat
         Pos.to_nat Pos.iter_op Nat.add].
    destruct buf as [|c0 [|c1 buf]]; destruct (w =? 1); simpl;
      eexists; (split; [reflexivity|]); eauto. }
  assert (Hthread : forall buf, exists tail,
            fst (run_loop (tcp_to_serial_iter true) buf
                   (mk_turn (mk_input 1 [b]) w :: rest)) =
              EvPrintf (Some b) (index buf 1) ::
              EvWrite serial_port_fd [Some b] w :: tail).
  { intros buf. rewrite run_loop_cons.
    destruct (Hiter buf) as (tail & Hevs & [Hst | (buf' & Hst)]);
      rewrite Hst, Hevs; cbn [fst]; eexists; reflexivity. }
  split; [|split].
  - destruct (Hiter buffer) as (tail & Hevs & _). exists tail. exact Hevs.
  - exact (Hthread (uninitialised RX_BUFFER_SIZE)).
  - intros a0 a1. unfold tcp_to_serial_thread. rewrite run_loop_cons.
    change (tcp_to_serial_iter true (uninitialised RX_BUFFER_SIZE)
              (mk_turn (mk_input 2 [a0; a1]) 2))
      with ([EvPrintf (Some a0) (Some a1);
             EvWrite serial_port_fd [Some a0; Some a1] 2],
            Running [Some a0; Some a1]).
    cbn [fst snd].
    destruct (Hthread [Some a0; Some a1]) as (tail & Hevs).
    rewrite Hevs. eexists; reflexivity.
Qed.

(** ** Joining the two threads *)

Lemma joined_step (verbose : bool) (p q : process) :
  joined p -> step verbose p q -> joined q.
Proof.
  intros Hj Hstep. unfold joined in *.
  destruct Hstep as [p _ Hpc | p _ Hpc | p buffer os _ Hrun | p buffer os _ Hrun
                    | p _ Hpc Hret | p _ Hpc Hret | p _ Hpc];
    cbn [pc tcp_thread serial_thread] in *.
  - rewrite Hpc in Hj. exact (proj2 Hj).
  - exact I.
  - destruct (pc p); rewrite ?Hrun in Hj; try exact I; try exact Hj;
      try discriminate Hj; destruct Hj as [Hj _]; discriminate Hj.
  - destruct (pc p); rewrite ?Hrun in Hj; try exact I; try exact Hj;
      try discriminate Hj; destruct Hj as [_ Hj]; discriminate Hj.
  - exact Hret.
  - rewrite Hpc in Hj. split; [exact Hj | exact Hret].
  - rewrite Hpc in Hj. exact Hj.
Qed.

Lemma reachable_joined (verbose : bool) (p : process) :
  reachable verbose p -> joined p.
Proof.
  unfold reachable. revert p. apply (rtc_ind_r joined start).
  - split; reflexivity.
  - intros p q _ Hstep IH. exact (joined_step verbose p q IH Hstep).
Qed.



(** While the TCP direction has not ended, main stays at the first join
    even though the serial direction is over. *)
Lemma serial_ended_first (verbose : bool) :
  reachable verbose
    (mk_process JoinTcp (Running (uninitialised RX_BUFFER_SIZE)) Returned []).
Proof.
  unfold reachable.
  refine (rtc_r _ _ _ _ (step_serial verbose
            (mk_process JoinTcp (Running (uninitialised RX_BUFFER_SIZE))
               (Running (uninitialised TX_BUFFER_SIZE)) [])
            _ (mk_turn (mk_input 0 []) 0) eq_refl eq_refl)).
  refine (rtc_r _ _ _ _ (step_create_serial verbose
            (mk_process CreateSerial (Running (uninitialised RX_BUFFER_SIZE))
               NotCreated []) eq_refl eq_refl)).
  refine (rtc_r _ _ _ _ (step_create_tcp verbose start eq_refl eq_refl)).
  apply rtc_refl.
Qed.



End ForwarderFacts.

(* ===================================================================== *)
(** * Facts about the encoder client                                      *)
(* ===================================================================== *)

Module ClientFacts.
Import Client.

Lemma sent_app (evs evs' : list event) : sent (evs ++ evs') = sent evs ++ sent evs'.
Proof.
  induction evs as [|e evs IH]; [reflexivity|].
  destruct e; simpl; congruence.
Qed.

Lemma to_char_byte (z : Z) : 0 <= z <= 255 -> to_char z = z.
Proof. intros Hz. unfold to_char. apply Z.mod_small. lia. Qed.


(** The loop is left only through one of its two [break]s. *)
Lemma client_iter_break (verbose : bool) (os : turn) :
  snd (client_iter verbose os) = Break ->
  rd_ret os < 0 \/
  (0 <= rd_ret os /\ to_size_t (snd_ret os) <> 2 /\
   exists buffer, In (EvSend buffer (snd_ret os)) (fst (client_iter verbose os))).
Proof.
  unfold client_iter. cbv zeta.
  change (Z.of_nat (length [?a; ?b])) with 2.
  destruct (rd_ret os <? 0) eqn:Hrd; [intros _; left; apply Z.ltb_lt, Hrd|].
  apply Z.ltb_ge in Hrd.
  destruct (to_size_t (snd_ret os) =? 2) eqn:Hsend;
    destruct (ev_type (ev_after os) =? EV_KEY),
      (ev_value (ev_after os) =? 1), (ev_value (ev_after os) =? 0),
      (ev_value (ev_after os) =? 2), (255 <? ev_code (ev_after os)), verbose;
    simpl; intros Hb; try discriminate Hb;
    right; apply Z.eqb_neq in Hsend;
    (split; [exact Hrd | split; [exact Hsend|]]);
    eexists; simpl; eauto.
Qed.

Lemma client_loop_cons (verbose : bool) (os : turn) (oss : list turn) :
  client_loop verbose (os :: oss) =
  match snd (client_iter verbose os) with
  | Continue => (fst (client_iter verbose os) ++ fst (client_loop verbose oss),
                 snd (client_loop verbose oss))
  | Break => (fst (client_iter verbose os), LeftLoop)
  end.
Proof.
  simpl. destruct (client_iter verbose os) as [evs [|]]; [|reflexivity].
  destruct (client_loop verbose oss); reflexivity.
Qed.


Lemma event_ok_code (ev : input_event) :
  event_ok ev = true -> 0 <= ev_code ev.
Proof.
  unfold event_ok. rewrite !andb_true_iff, !Z.leb_le. tauto.
Qed.




(** C10. A read that returns 0 does not end the client's loop.  An
    iteration whose read returned 0 leaves the loop only if it went on to
    call [send] (on whatever [ev] held) and the send fell short; a run
    leaves the loop only at an answer with a negative read result or a
    failed send; so against any number of reads that return 0, with
    whatever sends happen succeeding, the client is still in its loop. *)
Theorem eof_does_not_end_loop (verbose : bool) (oss : list turn) :
  (forall os, rd_ret os = 0 ->
     snd (client_iter verbose os) = Break ->
     to_size_t (snd_ret os) <> 2 /\
     exists buffer, In (EvSend buffer (snd_ret os)) (fst (client_iter verbose os))) /\
  (snd (client_loop verbose oss) = LeftLoop ->
   Exists (fun os => rd_ret os < 0 \/ to_size_t (snd_ret os) <> 2) oss) /\
  (Forall (fun os => rd_ret os = 0 /\ snd_ret os = 2) oss ->
   snd (client_loop verbose oss) = InLoop).
Proof.
  assert (Hleft : forall l, snd (client_loop verbose l) = LeftLoop ->
            Exists (fun os => rd_ret os < 0 \/ to_size_t (snd_ret os) <> 2) l).
  { induction l as [|os l IH]; [discriminate|].
    rewrite client_loop_cons.
    destruct (snd (client_iter verbose os)) eqn:Hctl; cbn [snd]; intros Hl.
    - apply Exists_cons_tl, IH, Hl.
    - apply Exists_cons_hd.
      destruct (client_iter_break verbose os Hctl) as [Hneg | (_ & Hsend & _)];
        [left | right]; assumption. }
  split; [|split].
  - intros os Hrd Hb.
    destruct (client_iter_break verbose os Hb) as [Hneg | (_ & Hsend & Hin)];
      [lia | split; assumption].
  - apply Hleft.
  - intros Hall.
    destruct (snd (client_loop verbose oss)) eqn:Ho; [reflexivity|].
    apply Hleft in Ho. apply Exists_exists in Ho.
    destruct Ho as (os & Hin & Hbad).
    rewrite Forall_forall in Hall. destruct (Hall os Hin) as [Hrd Hsnd].
    rewrite Hrd, Hsnd in Hbad.
    destruct Hbad as [Hbad | Hbad]; [lia | exfalso; apply Hbad; reflexivity].
Qed.

Lemma eof_does_not_end_loop_witness :
  snd (client_loop true
         [mk_turn 0 (mk_event 0 0 0) 2; mk_turn 0 (mk_event 1 30 1) 2;
          mk_turn 0 (mk_event 1 30 1) 2]) = InLoop.
Proof.
  refine (proj2 (proj2 (eof_does_not_end_loop true _)) _).
  repeat constructor.
Defined.

End ClientFacts.

(* ===================================================================== *)
(** * Client and bridge together                                          *)
(* ===================================================================== *)

Module EndToEnd.

(** Key 30 pressed and released: the client sends [254, 30] and
    [255, 30], and the bridge, receiving them as two chunks, writes the
    same four bytes to the serial line. *)
Example key_30_down_up :
  let messages :=
    Client.sent (fst (Client.client_loop false
      [Client.mk_turn 24 (Client.mk_event 1 30 1) 2;
       Client.mk_turn 24 (Client.mk_event 1 30 0) 2])) in
  messages = [[254; 30]; [255; 30]] /\
  Forwarder.delivered Forwarder.serial_port_fd
    (fst (Forwarder.tcp_to_serial_thread false
       (List.map (fun m => Forwarder.mk_turn (Forwarder.mk_input 2 m) 2) messages)))
  = [Some 254; Some 30; Some 255; Some 30].
Proof. split; reflexivity. Qed.

End EndToEnd.

(* ===================================================================== *)
(** * More about the line configuration                                   *)
(* ===================================================================== *)

Module TermiosMore.
Import Termios TermiosFacts.

Ltac bit_cases :=
  apply Z.bits_inj'; intros ?n ?Hn;
  repeat rewrite ?Z.land_spec, ?Z.lor_spec, ?Z.lnot_spec, ?Z.bits_0 by assumption;
  repeat match goal with
         | |- context [Z.testbit ?a ?n] => destruct (Z.testbit a n)
         end; reflexivity.

Section Configurator.
Context {H : termios_h}.

(** ** Doing the raw-mode assignments twice *)

Lemma cflag_twice (c : Z) :
  let f x := Z.lor (Z.land (Z.lor (Z.land (Z.land (Z.land x
    (Z.lnot PARENB)) (Z.lnot CSTOPB)) (Z.lnot CSIZE)) CS8) (Z.lnot CRTSCTS))
    (Z.lor CREAD CLOCAL) in
  f (f c) = f c.
Proof. intros f. subst f. cbv beta. bit_cases. Qed.

Lemma lflag_twice (c : Z) :
  let f x := Z.land (Z.land (Z.land (Z.land (Z.land x (Z.lnot ICANON))
    (Z.lnot ECHO)) (Z.lnot ECHOE)) (Z.lnot ECHONL)) (Z.lnot ISIG) in
  f (f c) = f c.
Proof. intros f. subst f. cbv beta. bit_cases. Qed.

Lemma two_masks_twice (c a b : Z) :
  let f x := Z.land (Z.land x (Z.lnot a)) (Z.lnot b) in
  f (f c) = f c.
Proof. intros f. subst f. cbv beta. bit_cases. Qed.

Lemma cc_twice (cc : list Z) :
  let f l := <[VMIN := 1]> (<[VTIME := 10]> l) in
  f (f cc) = f cc.
Proof.
  intros f. subst f. cbv beta.
  destruct (decide (VTIME = VMIN)) as [E | Hne].
  - rewrite E, !list_insert_insert_eq. reflexivity.
  - rewrite (list_insert_insert_ne _ VTIME VMIN 10 1) by exact Hne.
    rewrite !list_insert_insert_eq. reflexivity.
Qed.

Lemma termios_eq (t u : termios) :
  c_iflag t = c_iflag u -> c_oflag t = c_oflag u -> c_cflag t = c_cflag u ->
  c_lflag t = c_lflag u -> c_cc t = c_cc u ->
  c_ispeed t = c_ispeed u -> c_ospeed t = c_ospeed u -> t = u.
Proof.
  destruct t, u. cbn [c_iflag c_oflag c_cflag c_lflag c_cc c_ispeed c_ospeed].
  intros. subst. reflexivity.
Qed.

Lemma iflag_set_raw_fields (t : termios) :
  c_iflag (set_raw_fields t) =
  Z.land (Z.land (c_iflag t) (Z.lnot (Z.lor (Z.lor IXON IXOFF) IXANY)))
    (Z.lnot (Z.lor (Z.lor (Z.lor (Z.lor (Z.lor (Z.lor
       IGNBRK BRKINT) PARMRK) ISTRIP) INLCR) IGNCR) ICRNL)).
Proof. reflexivity. Qed.

Lemma oflag_set_raw_fields (t : termios) :
  c_oflag (set_raw_fields t) =
  Z.land (Z.land (c_oflag t) (Z.lnot OPOST)) (Z.lnot ONLCR).
Proof. reflexivity. Qed.

Lemma lflag_set_raw_fields (t : termios) :
  c_lflag (set_raw_fields t) =
  Z.land (Z.land (Z.land (Z.land (Z.land (c_lflag t) (Z.lnot ICANON))
    (Z.lnot ECHO)) (Z.lnot ECHOE)) (Z.lnot ECHONL)) (Z.lnot ISIG).
Proof. reflexivity. Qed.

Lemma set_raw_fields_twice (t : termios) :
  set_raw_fields (set_raw_fields t) = set_raw_fields t.
Proof.
  apply termios_eq.
  - rewrite !iflag_set_raw_fields. apply two_masks_twice.
  - rewrite !oflag_set_raw_fields. apply two_masks_twice.
  - rewrite !cflag_set_raw_fields. apply cflag_twice.
  - rewrite !lflag_set_raw_fields. apply lflag_twice.
  - rewrite !set_raw_fields_cc. apply cc_twice.
  - reflexivity.
  - reflexivity.
Qed.

(** ** The two speed calls *)

Lemma cfset_speed_fields (t : termios) (b : Z) :
  let u := fst (cfsetispeed (fst (cfsetospeed t b)) b) in
  c_iflag u = c_iflag t /\ c_oflag u = c_oflag t /\ c_cflag u = c_cflag t /\
  c_lflag u = c_lflag t /\ c_cc u = c_cc t /\
  c_ispeed u = (if speed_valid b then b else c_ispeed t) /\
  c_ospeed u = (if speed_valid b then b else c_ospeed t).
Proof.
  unfold cfsetispeed, cfsetospeed. destruct (speed_valid b); cbn; tauto.
Qed.

Lemma configure_line (fd : serial_dev) (baud : Z) :
  tcgetattr_ok fd = true ->
  tcsetattr_ok fd = true ->
  let b := fst (baudrate_to_speed_t baud) in
  configure_serial_port fd baud =
  mk_configured
    (mk_dev (set_raw_fields (fst (cfsetispeed (fst (cfsetospeed (line fd) b)) b)))
            true true (S (commits fd)))
    0 (snd (baudrate_to_speed_t baud)).
Proof. apply configure_after_get. Qed.

(** X1. With a consistent header, [baudrate_to_speed_t] answers with the
    error value [(speed_t)-1] and the diagnostic exactly for the rates
    that are not case labels of its switch; for the others it answers
    with one of the B-constants and prints nothing. *)
Theorem baud_error_value_exact (baud : Z) :
  header_ok = true ->
  (fst (baudrate_to_speed_t baud) = to_speed_t (-1) <-> supported baud = false) /\
  (snd (baudrate_to_speed_t baud) = [InvalidBaud baud] <-> supported baud = false) /\
  (supported baud = true ->
   In (fst (baudrate_to_speed_t baud)) speed_codes /\
   snd (baudrate_to_speed_t baud) = []).
Proof.
  intros Hok. apply header_ok_inv in Hok.
  destruct Hok as (_ & _ & _ & _ & _ & _ & _ & _ & _ & _ & _ & Hinv).
  destruct (supported baud) eqn:Hs.
  - destruct (baudrate_supported baud Hs) as (b & Eb & Hin).
    rewrite Eb. cbn [fst snd]. split; [|split].
    + split; [|discriminate]. intros E. rewrite E in Hin.
      apply speed_code_valid in Hin. congruence.
    + split; discriminate.
    + intros _. split; [exact Hin | reflexivity].
  - rewrite (baudrate_unsupported baud Hs). cbn [fst snd].
    split; [|split]; [tauto | tauto | discriminate].
Qed.

(** X2. The result of [configure_serial_port] is decided by the two
    termios calls alone, for every baud rate: it is 0 exactly when
    [tcgetattr] and [tcsetattr] both succeed and -1 otherwise.  When it is
    -1 the device is exactly as it was (nothing was committed); when
    [tcgetattr] fails the baud rate is not even looked at, so the only
    diagnostic is the one of [tcgetattr]. *)
Theorem configure_result_characterised (fd : serial_dev) (baud : Z) :
  let r := configure_serial_port fd baud in
  (cfg_ret r = 0 <-> tcgetattr_ok fd = true /\ tcsetattr_ok fd = true) /\
  (cfg_ret r = 0 \/ cfg_ret r = -1) /\
  (cfg_ret r = -1 -> cfg_dev r = fd) /\
  (cfg_ret r = 0 -> commits (cfg_dev r) = S (commits fd)) /\
  (tcgetattr_ok fd = false -> cfg_stderr r = [PerrorTcgetattr]).
Proof.
  intros r. subst r.
  destruct (tcgetattr_ok fd) eqn:Hg.
  - destruct (tcsetattr_ok fd) eqn:Hs.
    + rewrite (configure_line fd baud Hg Hs). cbn [cfg_ret cfg_dev commits].
      repeat split; auto; discriminate.
    + destruct (configure_set_fails fd baud Hg Hs) as [Ed Er].
      rewrite Er, Ed. repeat split; auto; try discriminate.
      intros [_ E]; discriminate E.
  - rewrite (configure_get_fails fd baud Hg). cbn [cfg_ret cfg_dev cfg_stderr].
    repeat split; auto; try discriminate.
    intros [E _]; discriminate E.
Qed.

(** X3. Configuring an already configured line changes nothing: a second
    successful [configure_serial_port] with the same baud rate commits
    the very attributes the first one left. *)
Theorem configure_twice_same_line (fd : serial_dev) (baud : Z) :
  tcgetattr_ok fd = true ->
  tcsetattr_ok fd = true ->
  let once := configure_serial_port fd baud in
  let twice := configure_serial_port (cfg_dev once) baud in
  cfg_ret twice = 0 /\
  line (cfg_dev twice) = line (cfg_dev once) /\
  commits (cfg_dev twice) = S (S (commits fd)).
Proof.
  intros Hg Hs once twice. subst once twice.
  rewrite (configure_line fd baud Hg Hs). cbv zeta. cbn [cfg_dev].
  match goal with
  | |- context [configure_serial_port (mk_dev ?t true true ?c) baud] =>
      rewrite (configure_line (mk_dev t true true c) baud eq_refl eq_refl)
  end.
  cbv zeta. cbn [cfg_ret cfg_dev line commits].
  split; [reflexivity | split; [|reflexivity]].
  set (b := fst (baudrate_to_speed_t baud)).
  set (u := fst (cfsetispeed (fst (cfsetospeed (line fd) b)) b)).
  destruct (cfset_speed_fields (set_raw_fields u) b) as (Hi & Ho & Hc & Hl & Hcc & Hsi & Hso).
  destruct (cfset_speed_fields (line fd) b) as (_ & _ & _ & _ & _ & Hui & Huo).
  fold u in Hui, Huo.
  destruct (set_raw_fields_speed u) as [Eo Ei].
  rewrite <- (set_raw_fields_twice u) at 2.
  apply termios_eq.
  - rewrite !iflag_set_raw_fields, Hi, iflag_set_raw_fields. reflexivity.
  - rewrite !oflag_set_raw_fields, Ho, oflag_set_raw_fields. reflexivity.
  - rewrite !cflag_set_raw_fields, Hc, cflag_set_raw_fields. reflexivity.
  - rewrite !lflag_set_raw_fields, Hl, lflag_set_raw_fields. reflexivity.
  - rewrite !set_raw_fields_cc, Hcc, set_raw_fields_cc. reflexivity.
  - destruct (set_raw_fields_speed (fst (cfsetispeed
               (fst (cfsetospeed (set_raw_fields u) b)) b))) as [_ ->].
    destruct (set_raw_fields_speed (set_raw_fields u)) as [_ ->].
    rewrite Hsi, Ei, Hui. destruct (speed_valid b); reflexivity.
  - destruct (set_raw_fields_speed (fst (cfsetispeed
               (fst (cfsetospeed (set_raw_fields u) b)) b))) as [-> _].
    destruct (set_raw_fields_speed (set_raw_fields u)) as [-> _].
    rewrite Hso, Eo, Huo. destruct (speed_valid b); reflexivity.
Qed.

(** X4. The raw-mode assignments of forwarder.c:110-130 change only what
    they name.  Applied to any [tty] (as the two speed calls left it, whatever
    they did to it): in each of the four flag words a bit position at
    which none of the masks used on that word has a bit keeps its value,
    the two speed fields are not touched, and so is every slot of [c_cc]
    other than VMIN and VTIME. *)
Theorem raw_mode_assignments_keep_unnamed_bits (tty : termios) (n : Z) :
  0 <= n ->
  let t := set_raw_fields tty in
  (Z.testbit (Z.lor PARENB (Z.lor CSTOPB (Z.lor CSIZE (Z.lor CS8
      (Z.lor CRTSCTS (Z.lor CREAD CLOCAL)))))) n = false ->
   Z.testbit (c_cflag t) n = Z.testbit (c_cflag tty) n) /\
  (Z.testbit (Z.lor ICANON (Z.lor ECHO (Z.lor ECHOE (Z.lor ECHONL ISIG)))) n
     = false ->
   Z.testbit (c_lflag t) n = Z.testbit (c_lflag tty) n) /\
  (Z.testbit (Z.lor (Z.lor (Z.lor IXON IXOFF) IXANY)
      (Z.lor (Z.lor (Z.lor (Z.lor (Z.lor (Z.lor
         IGNBRK BRKINT) PARMRK) ISTRIP) INLCR) IGNCR) ICRNL)) n = false ->
   Z.testbit (c_iflag t) n = Z.testbit (c_iflag tty) n) /\
  (Z.testbit (Z.lor OPOST ONLCR) n = false ->
   Z.testbit (c_oflag t) n = Z.testbit (c_oflag tty) n) /\
  c_ispeed t = c_ispeed tty /\ c_ospeed t = c_ospeed tty /\
  (forall i : nat, i <> VMIN -> i <> VTIME -> c_cc t !! i = c_cc tty !! i).
Proof.
  intros Hn t. subst t.
  rewrite cflag_set_raw_fields, lflag_set_raw_fields, iflag_set_raw_fields,
    oflag_set_raw_fields, set_raw_fields_cc.
  destruct (set_raw_fields_speed tty) as [Eo Ei].
  split; [|split; [|split; [|split; [|split; [|split]]]]];
    [ | | | | exact Ei | exact Eo | ].
  5: { intros i Hi1 Hi2. rewrite !list_lookup_insert_ne by congruence.
       reflexivity. }
  all: intros Hm;
    repeat rewrite ?Z.lor_spec, ?Z.land_spec, ?Z.lnot_spec in * by exact Hn;
    repeat match type of Hm with
           | context [Z.testbit ?a ?k] => destruct (Z.testbit a k)
           end; try discriminate Hm; cbn;
    rewrite ?andb_true_r, ?orb_false_r; reflexivity.
Qed.

End Configurator.

Lemma baud_error_value_exact_witness :
  fst (baudrate_to_speed_t (H := linux) 9601) = 4294967295 /\
  fst (baudrate_to_speed_t (H := linux) 9600) <> 4294967295.
Proof.
  pose proof (baud_error_value_exact (H := linux) 9601 eq_refl) as (W1 & _).
  pose proof (baud_error_value_exact (H := linux) 9600 eq_refl) as (W2 & _).
  split.
  - apply W1. reflexivity.
  - intros E. apply W2 in E. discriminate E.
Defined.

Lemma configure_twice_same_line_witness :
  line (cfg_dev (configure_serial_port (H := linux)
          (cfg_dev (configure_serial_port (H := linux) cooked_dev 9600)) 9600))
  = line (cfg_dev (configure_serial_port (H := linux) cooked_dev 9600)).
Proof.
  exact (proj1 (proj2 (configure_twice_same_line (H := linux) cooked_dev 9600
                         eq_refl eq_refl))).
Defined.

(** On Linux bits 0 to 3 of [c_cflag] hold the speed code and bit 10 is
    HUPCL; the assignments name none of them. *)
Lemma raw_mode_assignments_keep_unnamed_bits_witness :
  Z.testbit (c_cflag (set_raw_fields (H := linux) (with_cflag cooked_line 1215))) 0
    = true /\
  Z.testbit (c_cflag (set_raw_fields (H := linux) (with_cflag cooked_line 1215))) 10
    = true.
Proof.
  assert (H0 : 0 <= 0) by lia. assert (H10 : 0 <= 10) by lia.
  pose proof (raw_mode_assignments_keep_unnamed_bits (H := linux)
                (with_cflag cooked_line 1215) 0 H0) as (W0 & _).
  pose proof (raw_mode_assignments_keep_unnamed_bits (H := linux)
                (with_cflag cooked_line 1215) 10 H10) as (W10 & _).
  cbv zeta in W0, W10. rewrite (W0 eq_refl), (W10 eq_refl). split; reflexivity.
Defined.

End TermiosMore.

(* ===================================================================== *)
(** * More about the forwarding engine                                    *)
(* ===================================================================== *)

Module ForwarderMore.
Import Forwarder Traces ForwarderFacts.

(** ** Sizes *)

Lemma consumed_lengths (len : nat) (oss : list turn) :
  Forall (fun os => input_ok len (rx os) = true) oss ->
  Forall (fun data : list Z => (1 <= length data <= len)%nat) (consumed oss).
Proof.
  induction 1 as [|os oss Hos _ IH]; simpl; [constructor|].
  destruct (0 <? in_ret (rx os)) eqn:Hpos; [|constructor].
  constructor.
  - unfold input_ok in Hos. rewrite Hpos in Hos.
    apply andb_true_iff in Hos as [Hn Hle].
    apply Z.eqb_eq in Hn. apply Nat.leb_le in Hle. apply Z.ltb_lt in Hpos. lia.
  - destruct (negb (wr os =? in_ret (rx os))); [constructor | exact IH].
Qed.

Lemma run_loop_buffer_length (d : fd) iter (len : nat) :
  forwards_to d iter ->
  forall oss buffer,
    length buffer = len ->
    Forall (fun os => input_ok len (rx os) = true) oss ->
    forall b, snd (run_loop iter buffer oss) = Running b -> length b = len.
Proof.
  intros Hiter oss. induction oss as [|os oss IH]; intros buffer Hlen Hok b.
  - simpl. intros E. injection E as <-. exact Hlen.
  - inversion Hok as [|? ? Hos Hoss]; subst.
    rewrite run_loop_cons. pose proof (Hiter buffer os) as Hit. cbv zeta in Hit.
    destruct (0 <? in_ret (rx os)).
    + destruct Hit as [_ Hst]. rewrite Hst.
      destruct (wr os =? in_ret (rx os)); cbn [snd]; [|discriminate].
      apply IH; [|exact Hoss]. apply (os_read_length _ _ _ Hos eq_refl).
    + rewrite Hit. cbn [snd]. discriminate.
Qed.

(** X5. No write is larger than the buffer and none is empty: with the
    kernel keeping to the length it was given, every write of Direction A
    carries 1 or 2 bytes and every write of Direction B between 1 and 256,
    and the buffer a running thread holds has kept its declared size. *)
Theorem chunk_sizes_bounded (verbose : bool) (from_tcp from_serial : list turn) :
  Forall (fun os => input_ok RX_BUFFER_SIZE (rx os) = true) from_tcp ->
  Forall (fun os => input_ok TX_BUFFER_SIZE (rx os) = true) from_serial ->
  let a := tcp_to_serial_thread verbose from_tcp in
  let b := serial_to_tcp_thread from_serial in
  Forall (fun payload : list cell => (1 <= length payload <= 2)%nat)
    (requested serial_port_fd (fst a)) /\
  (forall buffer, snd a = Running buffer -> length buffer = 2%nat) /\
  Forall (fun payload : list cell => (1 <= length payload <= 256)%nat)
    (requested STDOUT_FILENO (fst b)) /\
  (forall buffer, snd b = Running buffer -> length buffer = 256%nat).
Proof.
  intros Ha Hb a b. subst a b. unfold tcp_to_serial_thread, serial_to_tcp_thread.
  destruct (run_loop_forwards serial_port_fd _ RX_BUFFER_SIZE
              (tcp_to_serial_forwards verbose) from_tcp
              (uninitialised RX_BUFFER_SIZE) Ha) as (Ea & _).
  destruct (run_loop_forwards STDOUT_FILENO _ TX_BUFFER_SIZE
              serial_to_tcp_forwards from_serial
              (uninitialised TX_BUFFER_SIZE) Hb) as (Eb & _).
  rewrite Ea, Eb. repeat split.
  - apply List.Forall_map.
    eapply Forall_impl; [exact (consumed_lengths _ _ Ha)|].
    intros data Hd. rewrite length_cells. exact Hd.
  - apply (run_loop_buffer_length serial_port_fd _ RX_BUFFER_SIZE
             (tcp_to_serial_forwards verbose) from_tcp
             (uninitialised RX_BUFFER_SIZE) eq_refl Ha).
  - apply List.Forall_map.
    eapply Forall_impl; [exact (consumed_lengths _ _ Hb)|].
    intros data Hd. rewrite length_cells. exact Hd.
  - apply (run_loop_buffer_length STDOUT_FILENO _ TX_BUFFER_SIZE
             serial_to_tcp_forwards from_serial
             (uninitialised TX_BUFFER_SIZE) eq_refl Hb).
Qed.

Lemma chunk_sizes_bounded_witness :
  Forall (fun payload : list cell => (1 <= length payload <= 2)%nat)
    (requested serial_port_fd
       (fst (tcp_to_serial_thread true
               [mk_turn (mk_input 2 [254; 30]) 2; mk_turn (mk_input 1 [255]) 0]))).
Proof.
  assert (Ha : Forall (fun os => input_ok RX_BUFFER_SIZE (rx os) = true)
            [mk_turn (mk_input 2 [254; 30]) 2; mk_turn (mk_input 1 [255]) 0])
    by (repeat constructor).
  assert (Hb : Forall (fun os => input_ok TX_BUFFER_SIZE (rx os) = true) [])
    by constructor.
  exact (proj1 (chunk_sizes_bounded true _ _ Ha Hb)).
Defined.

(** ** How a trace ends *)

Lemma quiet_app (evs evs' : list event) :
  quiet (evs ++ evs') = quiet evs && quiet evs'.
Proof. apply forallb_app. Qed.

Lemma tcp_to_serial_iter_ends (verbose : bool) (buffer : list cell) (os : turn) :
  ends_properly (fst (tcp_to_serial_iter verbose buffer os))
                (snd (tcp_to_serial_iter verbose buffer os)).
Proof.
  unfold tcp_to_serial_iter, os_read.
  cbn [fst snd].
  destruct (0 <? in_ret (rx os)); [|reflexivity].
  destruct (negb (wr os =? in_ret (rx os))), verbose; cbn [fst snd app ends_properly];
    try reflexivity.
  - split; [reflexivity|]. eexists [_; _]. split; reflexivity.
  - split; [reflexivity|]. eexists [_]. split; reflexivity.
Qed.

Lemma serial_to_tcp_iter_ends (buffer : list cell) (os : turn) :
  ends_properly (fst (serial_to_tcp_iter buffer os))
                (snd (serial_to_tcp_iter buffer os)).
Proof.
  unfold serial_to_tcp_iter, os_read.
  cbn [fst snd].
  destruct (0 <? in_ret (rx os)); [|reflexivity].
  destruct (negb (wr os =? in_ret (rx os))); cbn [fst snd ends_properly];
    try reflexivity.
  split; [reflexivity|]. eexists [_]. split; reflexivity.
Qed.

Lemma ends_properly_after (evs0 evs : list event) (st : thread_state) :
  quiet evs0 = true -> ends_properly evs st -> ends_properly (evs0 ++ evs) st.
Proof.
  intros Hq. destruct st as [| | |status]; cbn [ends_properly];
    try (intros Hq'; rewrite quiet_app, Hq, Hq'; reflexivity).
  intros (Hs & evs' & -> & Hq'). split; [exact Hs|].
  exists (evs0 ++ evs'). rewrite app_assoc, quiet_app, Hq, Hq'. split; reflexivity.
Qed.

Lemma run_loop_ends iter :
  (forall buffer os, ends_properly (fst (iter buffer os)) (snd (iter buffer os))) ->
  forall oss buffer,
    ends_properly (fst (run_loop iter buffer oss)) (snd (run_loop iter buffer oss)).
Proof.
  intros Hiter oss. induction oss as [|os oss IH]; intros buffer; [reflexivity|].
  rewrite run_loop_cons. specialize (Hiter buffer os).
  destruct (snd (iter buffer os)) as [|b| |status]; cbn [fst snd]; try exact Hiter.
  apply ends_properly_after; [exact Hiter | apply IH].
Qed.

(** X6. Within one thread [exit] is the last thing done, it is done
    with status 1, and it comes directly after the one [perror]: the trace
    of [tcp_to_serial_thread], and that of [serial_to_tcp_thread], against
    any answers either ends in [Exited 1] with [perror; exit(1)] as its
    last two events and no other [perror] or [exit], or does not end in
    [Exited] and has none at all. *)
Theorem fatal_exit_is_last (verbose : bool) (oss : list turn) :
  ends_properly (fst (tcp_to_serial_thread verbose oss))
                (snd (tcp_to_serial_thread verbose oss)) /\
  ends_properly (fst (serial_to_tcp_thread oss))
                (snd (serial_to_tcp_thread oss)).
Proof.
  split.
  - apply run_loop_ends, tcp_to_serial_iter_ends.
  - apply run_loop_ends, serial_to_tcp_iter_ends.
Qed.

(** Two complete chunks and then a write that takes one byte of two. *)
Lemma fatal_exit_is_last_witness :
  (exists evs',
     fst (tcp_to_serial_thread true
            [mk_turn (mk_input 2 [254; 30]) 2; mk_turn (mk_input 1 [255]) 1;
             mk_turn (mk_input 2 [30; 254]) 1; mk_turn (mk_input 1 [30]) 1])
     = evs' ++ [EvPerror; EvExit 1] /\ quiet evs' = true) /\
  (exists evs',
     fst (serial_to_tcp_thread
            [mk_turn (mk_input 2 [254; 30]) 2; mk_turn (mk_input 1 [255]) 1;
             mk_turn (mk_input 2 [30; 254]) 1; mk_turn (mk_input 1 [30]) 1])
     = evs' ++ [EvPerror; EvExit 1] /\ quiet evs' = true).
Proof.
  pose proof (fatal_exit_is_last true
                [mk_turn (mk_input 2 [254; 30]) 2; mk_turn (mk_input 1 [255]) 1;
                 mk_turn (mk_input 2 [30; 254]) 1; mk_turn (mk_input 1 [30]) 1])
    as [Wa Wb].
  exact (conj (proj2 Wa) (proj2 Wb)).
Defined.


(** ** The two directions in one trace *)

Lemma run_loop_one iter buffer os :
  run_loop iter buffer [os] = iter buffer os.
Proof.
  rewrite run_loop_cons. destruct (iter buffer os) as [evs st].
  cbn [fst snd run_loop]. destruct st; rewrite ?app_nil_r; reflexivity.
Qed.

Lemma run_loop_snoc iter buffer0 oss buffer os :
  snd (run_loop iter buffer0 oss) = Running buffer ->
  run_loop iter buffer0 (oss ++ [os]) =
  (fst (run_loop iter buffer0 oss) ++ fst (iter buffer os), snd (iter buffer os)).
Proof.
  intros E.
  rewrite (run_loop_app iter buffer0 oss [os] (fst (run_loop iter buffer0 oss)) buffer).
  - rewrite run_loop_one. reflexivity.
  - rewrite <- E. destruct (run_loop iter buffer0 oss); reflexivity.
Qed.

(** One iteration writes to its own descriptor only. *)
Lemma iteration_writes_to (d : fd) iter :
  forwards_to d iter ->
  forall buffer os d', d' <> d ->
    requested d' (fst (iter buffer os)) = [] /\
    delivered d' (fst (iter buffer os)) = [].
Proof.
  intros Hiter buffer os d' Hd. specialize (Hiter buffer os). cbv zeta in Hiter.
  rewrite <- (requested_without_printf d'), <- (delivered_without_printf d').
  destruct (0 <? in_ret (rx os)).
  - destruct Hiter as [-> _]. cbn [requested delivered].
    rewrite (fd_eqb_neq d d') by congruence.
    destruct (wr os =? in_ret (rx os)); split; reflexivity.
  - rewrite Hiter. split; reflexivity.
Qed.

Lemma runs_alone_other (d : fd) thread st evs evs' :
  requested d evs' = [] -> delivered d evs' = [] ->
  runs_alone d thread st evs -> runs_alone d thread st (evs ++ evs').
Proof.
  intros Hr Hd. unfold runs_alone.
  rewrite requested_app, delivered_app, Hr, Hd, !app_nil_r. tauto.
Qed.

Lemma iteration_state (d : fd) iter :
  forwards_to d iter ->
  forall buffer os, snd (iter buffer os) <> NotCreated.
Proof.
  intros Hiter buffer os. specialize (Hiter buffer os). cbv zeta in Hiter.
  destruct (0 <? in_ret (rx os)).
  - destruct Hiter as [_ ->]. destruct (wr os =? in_ret (rx os)); discriminate.
  - rewrite Hiter. discriminate.
Qed.

Lemma runs_alone_step (d : fd) iter buffer0 (buffer : list cell) os evs :
  forwards_to d iter ->
  runs_alone d (run_loop iter buffer0) (Running buffer) evs ->
  runs_alone d (run_loop iter buffer0) (snd (iter buffer os))
    (evs ++ fst (iter buffer os)).
Proof.
  intros Hiter (oss & Hst & Hr & Hd).
  assert (Hrun : exists oss',
            snd (run_loop iter buffer0 oss') = snd (iter buffer os) /\
            requested d (evs ++ fst (iter buffer os)) =
              requested d (fst (run_loop iter buffer0 oss')) /\
            delivered d (evs ++ fst (iter buffer os)) =
              delivered d (fst (run_loop iter buffer0 oss'))).
  { exists (oss ++ [os]). rewrite (run_loop_snoc iter buffer0 oss buffer os Hst).
    cbn [fst snd]. rewrite !requested_app, !delivered_app, Hr, Hd.
    repeat split. }
  pose proof (iteration_state d iter Hiter buffer os) as Hne.
  unfold runs_alone.
  destruct (snd (iter buffer os)); [congruence | exact Hrun ..].
Qed.

(** X7. The serial line carries Direction A's writes and nothing else.
    In every interleaving of main and the two threads, the write calls
    the process has made on the serial descriptor, and the bytes they
    delivered, are those of [tcp_to_serial_thread] run on its own against
    some answers, ending in the state the TCP thread is in; and the
    process has made no write call on the socket. *)
Theorem serial_line_carries_direction_a_only (verbose : bool) (p : process) :
  reachable verbose p ->
  runs_alone serial_port_fd (tcp_to_serial_thread verbose) (tcp_thread p) (trace p) /\
  requested tcp_socket_fd (trace p) = [] /\
  delivered tcp_socket_fd (trace p) = [].
Proof.
  unfold reachable. revert p. apply (rtc_ind_r _ start).
  - repeat split.
  - intros p q Hreach Hstep (IHa & IHr & IHd).
    pose proof (reachable_joined verbose p Hreach) as Hj. unfold joined in Hj.
    destruct Hstep as [p Ha Hpc | p Ha Hpc | p buffer os Ha Hrun | p buffer os Ha Hrun
                      | p Ha Hpc Hret | p Ha Hpc Hret | p Ha Hpc];
      cbn [tcp_thread serial_thread trace].
    + rewrite Hpc in Hj. destruct Hj as [Hj _]. rewrite Hj in IHa.
      destruct IHa as [Hr Hd].
      split; [|split; assumption].
      exists []. rewrite Hr, Hd. repeat split.
    + repeat split; assumption.
    + rewrite Hrun in IHa.
      destruct (iteration_writes_to serial_port_fd _
                  (tcp_to_serial_forwards verbose) buffer os tcp_socket_fd)
        as [Hr2 Hd2]; [discriminate|].
      split; [|split].
      * apply (runs_alone_step serial_port_fd (tcp_to_serial_iter verbose)
                 (uninitialised RX_BUFFER_SIZE) buffer os (trace p)
                 (tcp_to_serial_forwards verbose) IHa).
      * rewrite requested_app, IHr, Hr2. reflexivity.
      * rewrite delivered_app, IHd, Hd2. reflexivity.
    + destruct (iteration_writes_to STDOUT_FILENO _
                  serial_to_tcp_forwards buffer os serial_port_fd)
        as [Hr1 Hd1]; [discriminate|].
      destruct (iteration_writes_to STDOUT_FILENO _
                  serial_to_tcp_forwards buffer os tcp_socket_fd)
        as [Hr2 Hd2]; [discriminate|].
      split; [|split].
      * apply runs_alone_other; assumption.
      * rewrite requested_app, IHr, Hr2. reflexivity.
      * rewrite delivered_app, IHd, Hd2. reflexivity.
    + repeat split; assumption.
    + repeat split; assumption.
    + repeat split; assumption.
Qed.

(** A verbose run in which the serial thread writes a chunk to standard
    output between two chunks of the TCP thread. *)
Lemma interleaved_run :
  reachable true
    (mk_process JoinTcp (Running [Some 255; Some 30]) (Running
       (cells [68; 79] ++ drop 2 (uninitialised TX_BUFFER_SIZE)))
       [EvPrintf (Some 254) (Some 30); EvWrite serial_port_fd [Some 254; Some 30] 2;
        EvWrite STDOUT_FILENO [Some 68; Some 79] 2;
        EvPrintf (Some 255) (Some 30); EvWrite serial_port_fd [Some 255] 1]).
Proof.
  unfold reachable.
  refine (rtc_r _ _ _ _ (step_tcp true
            (mk_process JoinTcp (Running [Some 254; Some 30]) (Running
               (cells [68; 79] ++ drop 2 (uninitialised TX_BUFFER_SIZE)))
               [EvPrintf (Some 254) (Some 30);
                EvWrite serial_port_fd [Some 254; Some 30] 2;
                EvWrite STDOUT_FILENO [Some 68; Some 79] 2])
            _ (mk_turn (mk_input 1 [255]) 1) eq_refl eq_refl)).
  refine (rtc_r _ _ _ _ (step_serial true
            (mk_process JoinTcp (Running [Some 254; Some 30])
               (Running (uninitialised TX_BUFFER_SIZE))
               [EvPrintf (Some 254) (Some 30);
                EvWrite serial_port_fd [Some 254; Some 30] 2])
            _ (mk_turn (mk_input 2 [68; 79]) 2) eq_refl eq_refl)).
  refine (rtc_r _ _ _ _ (step_tcp true
            (mk_process JoinTcp (Running (uninitialised RX_BUFFER_SIZE))
               (Running (uninitialised TX_BUFFER_SIZE)) [])
            _ (mk_turn (mk_input 2 [254; 30]) 2) eq_refl eq_refl)).
  refine (rtc_r _ _ _ _ (step_create_serial true
            (mk_process CreateSerial (Running (uninitialised RX_BUFFER_SIZE))
               NotCreated []) eq_refl eq_refl)).
  refine (rtc_r _ _ _ _ (step_create_tcp true start eq_refl eq_refl)).
  apply rtc_refl.
Qed.

Lemma serial_line_carries_direction_a_only_witness :
  exists oss,
    snd (tcp_to_serial_thread true oss) = Running [Some 255; Some 30] /\
    [[Some 254; Some 30]; [Some 255]] =
      requested serial_port_fd (fst (tcp_to_serial_thread true oss)) /\
    [Some 254; Some 30; Some 255] =
      delivered serial_port_fd (fst (tcp_to_serial_thread true oss)).
Proof.
  exact (proj1 (serial_line_carries_direction_a_only true _ interleaved_run)).
Defined.


(** ** The diagnostic lines *)

Lemma tcp_to_serial_iter_logged (buffer : list cell) (os : turn) :
  input_ok RX_BUFFER_SIZE (rx os) = true ->
  if 0 <? in_ret (rx os) then
    exists b payload c1 buffer',
      tcp_to_serial_iter true buffer os =
        (EvPrintf (Some b) c1 :: EvWrite serial_port_fd (Some b :: payload) (wr os) ::
           (if wr os =? in_ret (rx os) then [] else [EvPerror; EvExit 1]),
         if wr os =? in_ret (rx os) then Running buffer' else Exited 1)
  else tcp_to_serial_iter true buffer os = ([], Returned).
Proof.
  intros Hos. pose proof (os_read_payload RX_BUFFER_SIZE (rx os) buffer Hos) as Hpay.
  unfold tcp_to_serial_iter. unfold input_ok in Hos. unfold os_read in *.
  cbn [fst snd] in *.
  destruct (0 <? in_ret (rx os)) eqn:Hpos; [|reflexivity].
  rewrite (Hpay eq_refl).
  apply andb_true_iff in Hos as [Hn _]. apply Z.eqb_eq in Hn.
  apply Z.ltb_lt in Hpos.
  destruct (in_data (rx os)) as [|b data']; [simpl in Hn; lia|].
  exists b, (cells data'). do 2 eexists.
  destruct (wr os =? in_ret (rx os)); reflexivity.
Qed.

Lemma logged_run (oss : list turn) :
  Forall (fun os => input_ok RX_BUFFER_SIZE (rx os) = true) oss ->
  forall buffer,
    logged_before_written
      (fst (run_loop (tcp_to_serial_iter true) buffer oss)) = true.
Proof.
  induction 1 as [|os oss Hos _ IH]; intros buffer; [reflexivity|].
  rewrite run_loop_cons.
  pose proof (tcp_to_serial_iter_logged buffer os Hos) as Hit.
  destruct (0 <? in_ret (rx os)).
  - destruct Hit as (b & payload & c1 & buffer' & ->).
    destruct (wr os =? in_ret (rx os)); cbn [fst snd app logged_before_written];
      rewrite Z.eqb_refl; cbn [andb]; [apply IH | reflexivity].
  - rewrite Hit. reflexivity.
Qed.

(** X8. In verbose mode the log and the forwarding go in step: with the
    kernel keeping to the length it was given, every write to the serial
    descriptor comes directly after a [printf], the first value printed
    is the first byte written, and no [printf] is without its write. *)
Theorem verbose_logs_each_chunk_before_writing (oss : list turn) :
  Forall (fun os => input_ok RX_BUFFER_SIZE (rx os) = true) oss ->
  logged_before_written (fst (tcp_to_serial_thread true oss)) = true.
Proof.
  intros Hok. apply (logged_run oss Hok).
Qed.

Lemma verbose_logs_each_chunk_before_writing_witness :
  logged_before_written
    (fst (tcp_to_serial_thread true
       [mk_turn (mk_input 2 [254; 30]) 2; mk_turn (mk_input 1 [255]) 0])) = true.
Proof.
  apply verbose_logs_each_chunk_before_writing. repeat constructor.
Defined.

(** ** Chunk boundaries *)

Lemma whole_turns (len : nat) (chunks : list (list Z)) :
  Forall (fun chunk : list Z => (1 <= length chunk <= len)%nat) chunks ->
  Forall (fun os => input_ok len (rx os) = true /\
                    0 < in_ret (rx os) /\ wr os = in_ret (rx os))
    (List.map whole chunks) /\
  List.map (fun os => in_data (rx os)) (List.map whole chunks) = chunks.
Proof.
  induction 1 as [|chunk chunks Hc _ [IH1 IH2]]; [split; constructor|].
  cbn [List.map]. split.
  - constructor; [|exact IH1].
    unfold whole, input_ok. cbn [rx wr in_ret in_data].
    assert (Hpos : (0 <? Z.of_nat (length chunk)) = true) by (apply Z.ltb_lt; lia).
    rewrite Hpos, Z.eqb_refl. cbn [andb].
    repeat split; [apply Nat.leb_le; lia | lia].
  - rewrite IH2. reflexivity.
Qed.

(** X19. Chunk boundaries do not matter.  However the kernel cuts the
    incoming stream into reads of 1 or 2 bytes (1 to 256 for the serial
    side), if every write is complete and the stream then ends, the
    thread returns and the bytes that reached the serial line (standard
    output) are the stream, byte for byte. *)
Theorem stream_survives_any_chunking (verbose : bool)
    (from_tcp from_serial : list (list Z)) :
  Forall (fun chunk : list Z => (1 <= length chunk <= 2)%nat) from_tcp ->
  Forall (fun chunk : list Z => (1 <= length chunk <= 256)%nat) from_serial ->
  let a := tcp_to_serial_thread verbose (List.map whole from_tcp ++ [end_of_stream]) in
  let b := serial_to_tcp_thread (List.map whole from_serial ++ [end_of_stream]) in
  snd a = Returned /\
  delivered serial_port_fd (fst a) = cells (concat from_tcp) /\
  snd b = Returned /\
  delivered STDOUT_FILENO (fst b) = cells (concat from_serial).
Proof.
  intros Ha Hb a b. subst a b.
  destruct (whole_turns RX_BUFFER_SIZE from_tcp Ha) as [Ha1 Ha2].
  destruct (whole_turns TX_BUFFER_SIZE from_serial Hb) as [Hb1 Hb2].
  assert (Hend : in_ret (rx end_of_stream) <= 0) by (cbn; lia).
  destruct (tcp_to_serial_clean_run verbose _ end_of_stream Ha1 Hend) as [Hs Hd].
  destruct (serial_to_tcp_clean_run _ end_of_stream Hb1 Hend) as [Hs' Hd'].
  rewrite Ha2 in Hd. rewrite Hb2 in Hd'. auto.
Qed.

Lemma stream_survives_any_chunking_witness :
  delivered serial_port_fd
    (fst (tcp_to_serial_thread false
            (List.map whole [[254]; [30; 255]; [30]] ++ [end_of_stream])))
  = cells [254; 30; 255; 30].
Proof.
  assert (Ha : Forall (fun chunk : list Z => (1 <= length chunk <= 2)%nat)
                 [[254]; [30; 255]; [30]]).
  { repeat constructor. }
  assert (Hb : Forall (fun chunk : list Z => (1 <= length chunk <= 256)%nat) [])
    by constructor.
  exact (proj1 (proj2 (stream_survives_any_chunking false _ _ Ha Hb))).
Defined.

End ForwarderMore.

(* ===================================================================== *)
(** * Facts about the bridge's main                                       *)
(* ===================================================================== *)

Module BridgeFacts.
Import Termios Bridge.

Section Main.
Variable atoi : string -> Z.

(** ** The option loop *)

Lemma parse_known (rets : list getopt_ret) :
  Forall (fun r => known_option r = true) rets ->
  forall o,
    parse_options atoi o rets =
    Parsed (mk_options
      (from_option atoi (port o) (last_arg (chr "p"%char) rets))
      (default (device o) (last_arg (chr "d"%char) rets))
      (from_option atoi (baud o) (last_arg (chr "b"%char) rets))
      (verbose o || existsb (fun r => opt_c r =? chr "v"%char) rets)).
Proof.
  induction 1 as [|r rets Hr _ IH]; intros o.
  - cbn. rewrite orb_false_r. destruct o; reflexivity.
  - cbn [parse_options last_arg existsb]. unfold known_option in Hr.
    change (chr "p"%char) with 112 in *. change (chr "d"%char) with 100 in *.
    change (chr "b"%char) with 98 in *. change (chr "v"%char) with 118 in *.
    destruct (opt_c r =? -1) eqn:Em.
    { apply Z.eqb_eq in Em. rewrite Em in Hr. discriminate Hr. }
    destruct (opt_c r =? 112) eqn:Ep.
    { apply Z.eqb_eq in Ep. rewrite Ep. cbn [Z.eqb Pos.eqb]. rewrite IH.
      cbn [port device baud verbose]. rewrite orb_false_l.
      destruct (last_arg 112 rets), (last_arg 100 rets), (last_arg 98 rets);
        reflexivity. }
    destruct (opt_c r =? 100) eqn:Ed.
    { apply Z.eqb_eq in Ed. rewrite Ed. cbn [Z.eqb Pos.eqb]. rewrite IH.
      cbn [port device baud verbose]. rewrite orb_false_l.
      destruct (last_arg 112 rets), (last_arg 100 rets), (last_arg 98 rets);
        reflexivity. }
    destruct (opt_c r =? 98) eqn:Eb.
    { apply Z.eqb_eq in Eb. rewrite Eb. cbn [Z.eqb Pos.eqb]. rewrite IH.
      cbn [port device baud verbose]. rewrite orb_false_l.
      destruct (last_arg 112 rets), (last_arg 100 rets), (last_arg 98 rets);
        reflexivity. }
    destruct (opt_c r =? 118) eqn:Ev; [|discriminate Hr].
    rewrite IH. cbn [port device baud verbose]. rewrite orb_true_r, orb_true_l.
    destruct (last_arg 112 rets), (last_arg 100 rets), (last_arg 98 rets);
      reflexivity.
Qed.

Lemma parse_unknown (rets : list getopt_ret) :
  Forall (fun r => opt_c r <> -1) rets ->
  Exists (fun r => known_option r = false) rets ->
  forall o, parse_options atoi o rets = UsageExit 1.
Proof.
  intros Hall Hex. induction Hex as [r rets Hr | r rets _ IH]; intros o;
    inversion Hall as [|? ? Hm Hall']; subst; apply Z.eqb_neq in Hm;
    cbn [parse_options]; rewrite Hm.
  - unfold known_option in Hr. rewrite !orb_false_iff in Hr.
    destruct Hr as [[[-> ->] ->] ->]. reflexivity.
  - destruct (opt_c r =? chr "p"%char); [apply IH, Hall'|].
    destruct (opt_c r =? chr "d"%char); [apply IH, Hall'|].
    destruct (opt_c r =? chr "b"%char); [apply IH, Hall'|].
    destruct (opt_c r =? chr "v"%char); [apply IH, Hall'|]. reflexivity.
Qed.

Context {H : termios_h}.

(** ** Setting up *)

Lemma configure_ret_sign (fd : serial_dev) (baud_rate : Z) :
  (cfg_ret (configure_serial_port fd baud_rate) <? 0) =
  negb (tcgetattr_ok fd && tcsetattr_ok fd).
Proof.
  destruct (tcgetattr_ok fd) eqn:Hg.
  - destruct (tcsetattr_ok fd) eqn:Hs.
    + rewrite (TermiosFacts.configure_after_get fd baud_rate Hg Hs). reflexivity.
    + destruct (TermiosFacts.configure_set_fails fd baud_rate Hg Hs) as [_ ->].
      reflexivity.
  - rewrite (TermiosFacts.configure_get_fails fd baud_rate Hg). reflexivity.
Qed.

Lemma ltb_leb_neg (z : Z) : (z <? 0) = negb (0 <=? z).
Proof. destruct (Z.ltb_spec z 0), (Z.leb_spec 0 z); try reflexivity; lia. Qed.

(** X9. Options are applied in the order [getopt_long] returns them,
    the last one of a kind winning, and [verbose] once set stays set;
    what was not given keeps its default (65432, /dev/ttyUSB0, 115200,
    not verbose).  Any return that is not one of p, d, b, v (so h, ?, and
    the 0 that the long-option table gives --help) makes main print the
    usage text and exit with status 1 before the serial device is opened. *)
Theorem bridge_options (rets : list getopt_ret) (os : answers) :
  (Forall (fun r => known_option r = true) rets ->
   parse_options atoi defaults rets =
   Parsed (mk_options
     (from_option atoi PORT (last_arg (chr "p"%char) rets))
     (default DEVICE (last_arg (chr "d"%char) rets))
     (from_option atoi BAUD_RATE (last_arg (chr "b"%char) rets))
     (existsb (fun r => opt_c r =? chr "v"%char) rets))) /\
  (Forall (fun r => opt_c r <> -1) rets ->
   Exists (fun r => known_option r = false) rets ->
   main_until_threads atoi rets os = Finished 1 [SysUsage] (dev os)).
Proof.
  split.
  - intros Hk. exact (parse_known rets Hk defaults).
  - intros Hall Hex. unfold main_until_threads.
    rewrite (parse_unknown rets Hall Hex defaults). reflexivity.
Qed.

(** X10. main gets as far as creating the threads exactly when the
    options were accepted, [open], [tcgetattr], [tcsetattr], [socket],
    [bind], [listen] and [accept] all succeeded; the baud rate has no say
    in it.  It then holds the three descriptors the kernel returned and
    the device as [configure_serial_port] left it.  In every other case
    it ends with status 1. *)
Theorem bridge_forwards_iff_setup_succeeds (rets : list getopt_ret) (os : answers) :
  match main_until_threads atoi rets os with
  | Forwarding o serial_fd server_fd new_socket evs dev' =>
      ready (is_parsed (parse_options atoi defaults rets)) os = true /\
      parse_options atoi defaults rets = Parsed o /\
      serial_fd = open_ret os /\ server_fd = socket_ret os /\
      new_socket = accept_ret os /\
      dev' = cfg_dev (configure_serial_port (dev os) (baud o))
  | Finished status evs dev' =>
      ready (is_parsed (parse_options atoi defaults rets)) os = false /\
      status = 1
  end.
Proof.
  destruct (parse_options atoi defaults rets) as [o|status] eqn:Eparse.
  - unfold main_until_threads, ready. rewrite Eparse.
    cbv zeta. cbn [is_parsed andb].
    rewrite configure_ret_sign, !ltb_leb_neg.
    destruct (0 <=? open_ret os); cbn [negb andb]; [|split; reflexivity].
    destruct (tcgetattr_ok (dev os)); cbn [negb andb]; [|split; reflexivity].
    destruct (tcsetattr_ok (dev os)); cbn [negb andb]; [|split; reflexivity].
    destruct (0 <=? socket_ret os); cbn [negb andb]; [|split; reflexivity].
    destruct (0 <=? bind_ret os); cbn [negb andb]; [|split; reflexivity].
    destruct (0 <=? listen_ret os); cbn [negb andb]; [|split; reflexivity].
    destruct (0 <=? accept_ret os); cbn [negb andb]; [|split; reflexivity].
    repeat split.
  - unfold main_until_threads. rewrite Eparse. split; [reflexivity|].
    clear - Eparse. revert Eparse. generalize defaults.
    induction rets as [|r rets' IH]; intros o; cbn [parse_options]; [discriminate|].
    destruct (opt_c r =? -1); [discriminate|].
    destruct (opt_c r =? chr "p"%char); [apply IH|].
    destruct (opt_c r =? chr "d"%char); [apply IH|].
    destruct (opt_c r =? chr "b"%char); [apply IH|].
    destruct (opt_c r =? chr "v"%char); [apply IH|].
    intros E. injection E as <-. reflexivity.
Qed.

(** X11. What main does with its descriptors.  When it gets to the
    threads it holds three open descriptors and has closed none, and
    after the joins it closes all three, last opened first, and returns
    0.  When it ends early there are two cases and no other: if the
    device was opened and then [configure_serial_port] or [socket]
    failed, the serial descriptor is the one descriptor opened and
    nothing was closed; in every other case main has closed every
    descriptor it had opened, last opened first. *)
Theorem bridge_descriptors (rets : list getopt_ret) (os : answers) :
  match main_until_threads atoi rets os with
  | Forwarding o serial_fd server_fd new_socket evs dev' =>
      opened evs = [serial_fd; server_fd; new_socket] /\
      closed evs = [] /\
      closed (fst (main_after_joins serial_fd server_fd new_socket)) =
        rev (opened evs) /\
      snd (main_after_joins serial_fd server_fd new_socket) = 0
  | Finished status evs dev' =>
      if left_open (is_parsed (parse_options atoi defaults rets)) os
      then opened evs = [open_ret os] /\ closed evs = []
      else closed evs = rev (opened evs)
  end.
Proof.
  unfold main_until_threads, left_open.
  destruct (parse_options atoi defaults rets) as [o|status]; [|reflexivity].
  cbv zeta. cbn [is_parsed andb]. rewrite configure_ret_sign, !ltb_leb_neg.
  destruct (0 <=? open_ret os) eqn:Eopen; cbn [negb andb].
  2: { cbn. rewrite ltb_leb_neg, Eopen. reflexivity. }
  destruct (tcgetattr_ok (dev os) && tcsetattr_ok (dev os)) eqn:Ecfg;
    cbn [negb orb].
  2: { cbn. rewrite ltb_leb_neg, Eopen. cbn. auto. }
  destruct (0 <=? socket_ret os) eqn:Esock; cbn [negb].
  2: { cbn. rewrite !ltb_leb_neg, Eopen, Esock. cbn. auto. }
  destruct (0 <=? bind_ret os) eqn:Ebind; cbn [negb].
  2: { cbn. rewrite !ltb_leb_neg, Eopen, Esock. reflexivity. }
  destruct (0 <=? listen_ret os) eqn:Elisten; cbn [negb].
  2: { cbn. rewrite !ltb_leb_neg, Eopen, Esock. reflexivity. }
  destruct (0 <=? accept_ret os) eqn:Eaccept; cbn [negb].
  2: { cbn. rewrite !ltb_leb_neg, Eopen, Esock, Eaccept. reflexivity. }
  cbn. rewrite !ltb_leb_neg, Eopen, Esock, Eaccept. cbn. repeat split.
Qed.

(** ** The port *)

Lemma all_bits_spec (k : nat) :
  forall f, all_bits k f = true ->
  forall x, 0 <= x < 2 ^ Z.of_nat k -> f x = true.
Proof.
  induction k as [|k IH]; intros f Hall x Hx.
  - cbn in Hx. assert (x = 0) as -> by lia. exact Hall.
  - cbn [all_bits] in Hall.
    rewrite Nat2Z.inj_succ, Z.pow_succ_r in Hx by lia.
    assert (Hq : 0 <= x / 2 < 2 ^ Z.of_nat k).
    { split; [apply Z.div_pos; lia | apply Z.div_lt_upper_bound; lia]. }
    pose proof (IH _ Hall (x / 2) Hq) as Hf. cbv beta in Hf.
    apply andb_true_iff in Hf as [H0 H1].
    pose proof (Z.div_mod x 2 ltac:(lia)) as Hdm.
    pose proof (Z.mod_pos_bound x 2 ltac:(lia)) as Hm.
    assert (x = 2 * (x / 2) \/ x = 2 * (x / 2) + 1) as [-> | ->] by lia;
      assumption.
Qed.

Lemma ntohs_htons (z : Z) : ntohs (htons z) = z mod 2 ^ 16.
Proof.
  assert (Hx : 0 <= z mod 2 ^ 16 < 2 ^ Z.of_nat 16).
  { apply Z.mod_pos_bound. reflexivity. }
  assert (Hall : all_bits 16 (fun x => ntohs (htons x) =? x) = true)
    by (vm_compute; reflexivity).
  pose proof (all_bits_spec 16 _ Hall _ Hx) as Hc. cbv beta in Hc.
  apply Z.eqb_eq in Hc.
  assert (Hsame : htons z = htons (z mod 2 ^ 16)).
  { unfold htons, to_uint16. rewrite Z.mod_mod by discriminate. reflexivity. }
  rewrite Hsame. exact Hc.
Qed.

(** X12. The port is narrowed to 16 bits on its way to [bind] but not
    on its way to the announcement: when main gets to the threads it has
    bound [htons(port)], which the kernel reads back as [port mod 65536],
    and has printed "Server listening on port" with [port] itself; the
    two agree exactly when [port] is between 0 and 65535. *)
Theorem bridge_binds_port_mod_65536 (rets : list getopt_ret) (os : answers) :
  match main_until_threads atoi rets os with
  | Forwarding o serial_fd server_fd new_socket evs dev' =>
      In (SysBind server_fd (htons (port o)) (bind_ret os)) evs /\
      In (SysPrintfListening (port o) (device o)) evs /\
      ntohs (htons (port o)) = port o mod 2 ^ 16 /\
      (ntohs (htons (port o)) = port o <-> 0 <= port o < 2 ^ 16)
  | Finished _ _ _ => True
  end.
Proof.
  unfold main_until_threads.
  destruct (parse_options atoi defaults rets) as [o|status]; [|exact I].
  cbv zeta.
  destruct (open_ret os <? 0); [exact I|].
  destruct (cfg_ret (configure_serial_port (dev os) (baud o)) <? 0); [exact I|].
  destruct (socket_ret os <? 0); [exact I|].
  destruct (bind_ret os <? 0); [exact I|].
  destruct (listen_ret os <? 0); [exact I|].
  destruct (accept_ret os <? 0); [exact I|].
  split; [|split; [|split]].
  - cbn. auto 10.
  - cbn. auto 10.
  - apply ntohs_htons.
  - rewrite ntohs_htons. split.
    + intros E. rewrite <- E. apply Z.mod_pos_bound. reflexivity.
    + intros Hp. apply Z.mod_small. exact Hp.
Qed.

End Main.

Lemma bridge_options_witness :
  parse_options (fun _ => 9600) defaults
    [mk_getopt 98 "9600"; mk_getopt 118 ""; mk_getopt 100 "/dev/ttyS0";
     mk_getopt 100 "/dev/ttyS1"]
  = Parsed (mk_options 65432 "/dev/ttyS1" 9600 true) /\
  main_until_threads (H := linux) (fun _ => 0)
    [mk_getopt 118 ""; mk_getopt 0 ""]
    (mk_answers 3 cooked_dev 4 0 0 5)
  = Finished 1 [SysUsage] cooked_dev.
Proof.
  split.
  - refine (proj1 (bridge_options (H := linux) (fun _ => 9600) _
                     (mk_answers 3 cooked_dev 4 0 0 5)) _).
    repeat constructor.
  - refine (proj2 (bridge_options (H := linux) (fun _ => 0) _ _) _ _).
    + repeat constructor; discriminate.
    + apply Exists_cons_tl, Exists_cons_hd. reflexivity.
Defined.

Lemma bridge_binds_port_mod_65536_witness :
  ntohs (htons 70000) = 4464.
Proof.
  exact (proj1 (proj2 (proj2 (bridge_binds_port_mod_65536 (H := linux)
           (fun _ => 70000) [mk_getopt 112 "70000"]
           (mk_answers 3 cooked_dev 4 0 0 5))))).
Defined.

End BridgeFacts.

(* ===================================================================== *)
(** * More about the encoder client                                       *)
(* ===================================================================== *)

Module ClientMore.
Import Client ClientMain ClientFacts.

(** ** One iteration, case by case *)

Lemma client_iter_cases (verbose : bool) (os : turn) :
  let ev := ev_after os in
  if rd_ret os <? 0 then client_iter verbose os = ([PerrorRead], Break)
  else if (ev_type ev =? EV_KEY) && ((ev_value ev =? 1) || (ev_value ev =? 0))
          && (ev_code ev <=? 255)
  then sent (fst (client_iter verbose os)) =
         [[if ev_value ev =? 1 then 254 else 255; to_char (ev_code ev)]] /\
       snd (client_iter verbose os) =
         (if to_size_t (snd_ret os) =? 2 then Continue else Break)
  else sent (fst (client_iter verbose os)) = [] /\
       snd (client_iter verbose os) = Continue.
Proof.
  cbv zeta. unfold client_iter. cbv zeta.
  change (Z.of_nat (length [?a; ?b])) with 2.
  destruct (rd_ret os <? 0); [reflexivity|].
  destruct (ev_type (ev_after os) =? EV_KEY); [|split; reflexivity].
  cbn [andb].
  assert (Hle : (255 <? ev_code (ev_after os)) = negb (ev_code (ev_after os) <=? 255)).
  { destruct (Z.ltb_spec 255 (ev_code (ev_after os))),
      (Z.leb_spec (ev_code (ev_after os)) 255); try reflexivity; lia. }
  rewrite Hle.
  destruct (ev_value (ev_after os) =? 1) eqn:E1.
  - cbn [orb andb]. destruct (ev_code (ev_after os) <=? 255); cbn [negb].
    + destruct (to_size_t (snd_ret os) =? 2), verbose; split; reflexivity.
    + destruct verbose; split; reflexivity.
  - destruct (ev_value (ev_after os) =? 0) eqn:E0; cbn [orb andb].
    + destruct (ev_code (ev_after os) <=? 255); cbn [negb].
      * destruct (to_size_t (snd_ret os) =? 2), verbose; split; reflexivity.
      * destruct verbose; split; reflexivity.
    + destruct (ev_value (ev_after os) =? 2); split; reflexivity.
Qed.

Lemma client_loop_left (verbose : bool) (oss : list turn) :
  snd (client_loop verbose oss) = LeftLoop ->
  Exists (fun os => rd_ret os < 0 \/ to_size_t (snd_ret os) <> 2) oss.
Proof.
  induction oss as [|os oss IH]; [discriminate|].
  rewrite client_loop_cons.
  destruct (snd (client_iter verbose os)) eqn:Hctl; cbn [snd]; intros Hl.
  - apply Exists_cons_tl, IH, Hl.
  - apply Exists_cons_hd.
    destruct (client_iter_break verbose os Hctl) as [Hneg | (_ & Hsend & _)];
      [left | right]; assumption.
Qed.

(** X13. Every message the client puts on the wire is two bytes: the
    press or the release sentinel (254 or 255), then a byte between 0
    and 255; this holds whatever the device delivers. *)
Theorem wire_messages_well_formed (verbose : bool) (oss : list turn) :
  Forall (fun message =>
            exists kind code,
              message = [kind; code] /\
              (kind = PRESS_IDENTIFIER \/ kind = RELEASE_IDENTIFIER) /\
              0 <= code <= 255)
    (sent (fst (client_loop verbose oss))).
Proof.
  induction oss as [|os oss IH]; [constructor|].
  rewrite client_loop_cons.
  assert (Hit : Forall (fun message =>
            exists kind code,
              message = [kind; code] /\
              (kind = PRESS_IDENTIFIER \/ kind = RELEASE_IDENTIFIER) /\
              0 <= code <= 255) (sent (fst (client_iter verbose os)))).
  { pose proof (client_iter_cases verbose os) as Hc. cbv zeta in Hc.
    destruct (rd_ret os <? 0); [rewrite Hc; constructor|].
    destruct (_ && _); destruct Hc as [-> _]; [|constructor].
    constructor; [|constructor].
    do 2 eexists. split; [reflexivity|]. split.
    - destruct (ev_value (ev_after os) =? 1); [left | right]; reflexivity.
    - unfold to_char.
      pose proof (Z.mod_pos_bound (ev_code (ev_after os)) (2 ^ 8) eq_refl) as Hb.
      change (2 ^ 8) with 256 in *. lia. }
  destruct (snd (client_iter verbose os)); cbn [fst]; [|exact Hit].
  rewrite sent_app. apply Forall_app. split; assumption.
Qed.

(** X14. The wire carries the key transitions, all of them and in
    order: read back as (press or release, code), the messages sent over
    a run are exactly the presses and releases with a code of at most 255
    among the records the loop got through, up to the answer at which it
    was left.  Nothing is reordered, repeated or made up. *)
Theorem wire_stream_is_the_key_transitions (verbose : bool) (oss : list turn) :
  Forall (fun os => event_ok (ev_after os) = true) oss ->
  List.map decode (sent (fst (client_loop verbose oss))) =
  List.map Some (transitions oss).
Proof.
  induction 1 as [|os oss Hok _ IH]; [reflexivity|].
  rewrite client_loop_cons. cbn [transitions].
  pose proof (client_iter_cases verbose os) as Hc. cbv zeta in Hc.
  destruct (rd_ret os <? 0).
  { rewrite Hc. reflexivity. }
  destruct (_ && _) eqn:Ekey; destruct Hc as [Hs Hctl]; rewrite Hctl.
  - apply andb_true_iff in Ekey as [_ Hle]. apply Z.leb_le in Hle.
    apply event_ok_code in Hok.
    rewrite to_char_byte in Hs by lia.
    destruct (to_size_t (snd_ret os) =? 2); cbn [fst].
    + rewrite sent_app, Hs, List.map_app, IH.
      destruct (ev_value (ev_after os) =? 1); reflexivity.
    + rewrite Hs. destruct (ev_value (ev_after os) =? 1); reflexivity.
  - cbn [fst]. rewrite sent_app, Hs. exact IH.
Qed.

Lemma wire_stream_is_the_key_transitions_witness :
  List.map decode (sent (fst (client_loop true
     [mk_turn 24 (mk_event 1 30 1) 2; mk_turn 24 (mk_event 0 0 0) 2;
      mk_turn 24 (mk_event 1 30 2) 2; mk_turn 24 (mk_event 1 30 0) 2])))
  = [Some (true, 30); Some (false, 30)].
Proof.
  refine (wire_stream_is_the_key_transitions true _ _). repeat constructor.
Defined.

(** X15. The client's verbose flag changes what is printed and nothing
    else: against the same answers, the messages sent and the way the
    loop ends are the same with and without it. *)
Theorem client_verbose_changes_no_message (oss : list turn) :
  sent (fst (client_loop true oss)) = sent (fst (client_loop false oss)) /\
  snd (client_loop true oss) = snd (client_loop false oss).
Proof.
  induction oss as [|os oss [IH1 IH2]]; [split; reflexivity|].
  rewrite !client_loop_cons.
  assert (Hit : sent (fst (client_iter true os)) = sent (fst (client_iter false os)) /\
                snd (client_iter true os) = snd (client_iter false os)).
  { pose proof (client_iter_cases true os) as Ht.
    pose proof (client_iter_cases false os) as Hf. cbv zeta in Ht, Hf.
    destruct (rd_ret os <? 0); [rewrite Ht, Hf; split; reflexivity|].
    destruct (_ && _); destruct Ht as [-> ->], Hf as [-> ->]; split; reflexivity. }
  destruct Hit as [Hs Hc]. rewrite Hc.
  destruct (snd (client_iter false os)); cbn [fst snd].
  - rewrite !sent_app, Hs, IH1, IH2. split; reflexivity.
  - rewrite Hs. split; reflexivity.
Qed.

(** X16. Records that are not of key type leave no trace: taking them
    out of what the device delivers changes neither what the client
    prints and sends nor how its loop ends. *)
Theorem other_records_are_transparent (verbose : bool) (oss : list turn) :
  client_loop verbose (List.filter matters oss) = client_loop verbose oss.
Proof.
  induction oss as [|os oss IH]; [reflexivity|].
  cbn [List.filter]. destruct (matters os) eqn:Em.
  - rewrite !client_loop_cons, IH. reflexivity.
  - rewrite IH, client_loop_cons.
    unfold matters in Em. apply orb_false_iff in Em as [Hrd Hty].
    unfold client_iter. rewrite Hrd. cbv zeta. rewrite Hty. cbn [fst snd app].
    destruct (client_loop verbose oss); reflexivity.
Qed.

(** ** main *)

Lemma client_parse_status (rets : list Bridge.getopt_ret) :
  forall o status, parse_options o rets = UsageExit status -> status = 1.
Proof.
  induction rets as [|r rets IH]; intros o status; cbn [parse_options]; [discriminate|].
  cbv zeta.
  destruct (Bridge.opt_c r =? -1); [discriminate|].
  destruct (Bridge.opt_c r =? Bridge.chr "h"%char); [apply IH|].
  destruct (Bridge.opt_c r =? Bridge.chr "p"%char); [apply IH|].
  destruct (Bridge.opt_c r =? Bridge.chr "d"%char); [apply IH|].
  destruct (Bridge.opt_c r =? Bridge.chr "v"%char); [apply IH|].
  intros E. injection E as <-. reflexivity.
Qed.

Lemma client_ltb_leb_neg (z : Z) : (z <? 0) = negb (0 <=? z).
Proof. destruct (Z.ltb_spec z 0), (Z.leb_spec 0 z); try reflexivity; lia. Qed.

(** X17. The client leaks nothing on any path out of main: whenever
    main returns, the descriptors it closed are exactly the descriptors
    it had obtained from [open] and [socket], each closed once and in the
    order obtained, and [freeaddrinfo] was called once if [getaddrinfo]
    had succeeded and not at all otherwise.  While it is in its loop it
    holds the two descriptors and has already freed the address list. *)
Theorem client_releases_what_it_acquired (rets : list Bridge.getopt_ret)
    (os : answers) :
  match main rets os with
  | Finished status evs =>
      closed evs = opened evs /\ freed evs = resolved evs
  | Looping evs =>
      opened evs = [open_ret os; socket_ret os] /\ closed evs = [] /\
      resolved evs = 1%nat /\ freed evs = 1%nat
  end.
Proof.
  unfold main.
  destruct (parse_options defaults rets) as [o|status]; [|split; reflexivity].
  cbv zeta. rewrite !client_ltb_leb_neg.
  destruct (0 <=? open_ret os) eqn:Eopen; cbn [negb].
  2: { cbn. rewrite client_ltb_leb_neg, Eopen. split; reflexivity. }
  destruct (getaddrinfo_status os =? 0) eqn:Egai; cbn [negb].
  2: { cbn. rewrite client_ltb_leb_neg, Eopen, Egai. split; reflexivity. }
  destruct (0 <=? socket_ret os) eqn:Esock; cbn [negb].
  2: { cbn. rewrite !client_ltb_leb_neg, Eopen, Egai, Esock. split; reflexivity. }
  destruct (connect_ret os =? -1).
  { cbn. rewrite !client_ltb_leb_neg, Eopen, Egai, Esock. split; reflexivity. }
  destruct (client_loop (verbose o) (turns os)) as [l [|]];
    cbn; rewrite !client_ltb_leb_neg, Eopen, Egai, Esock; repeat split.
Qed.

(** X18. What main's result says.  main is in its loop, or has got
    past it, exactly when the connection was set up.  When it returns,
    its result is 0 exactly when the connection had been set up, -1
    (255 to the parent) exactly when the options were accepted, [open]
    succeeded and [getaddrinfo] failed, and 1 in every other case; and it
    returns 0 only after a read failed or a send fell short. *)
Theorem client_exit_status (rets : list Bridge.getopt_ret) (os : answers) :
  match main rets os with
  | Looping evs =>
      connected (is_parsed (parse_options defaults rets)) os = true
  | Finished status evs =>
      (status = 0 <->
       connected (is_parsed (parse_options defaults rets)) os = true) /\
      (status = -1 <->
       is_parsed (parse_options defaults rets) = true /\
       0 <= open_ret os /\ getaddrinfo_status os <> 0) /\
      (status <> 0 -> status <> -1 -> status = 1) /\
      (status = -1 -> wait_status status = 255) /\
      (status = 0 ->
       Exists (fun t => rd_ret t < 0 \/ to_size_t (snd_ret t) <> 2) (turns os))
  end.
Proof.
  unfold main, connected.
  destruct (parse_options defaults rets) as [o|status] eqn:Eparse; cbn [is_parsed andb].
  2: { rewrite (client_parse_status rets defaults status Eparse).
       intuition (try discriminate; try congruence). }
  cbv zeta. rewrite !client_ltb_leb_neg.
  destruct (0 <=? open_ret os) eqn:Eopen; cbn [negb andb].
  2: { apply Z.leb_gt in Eopen.
       intuition (try discriminate; try congruence; try lia). }
  apply Z.leb_le in Eopen.
  destruct (getaddrinfo_status os =? 0) eqn:Egai; cbn [negb andb].
  2: { apply Z.eqb_neq in Egai.
       intuition (try discriminate; try congruence). }
  apply Z.eqb_eq in Egai.
  destruct (0 <=? socket_ret os); cbn [negb andb].
  2: { intuition (try discriminate; try congruence). }
  destruct (connect_ret os =? -1); cbn [negb].
  { intuition (try discriminate; try congruence). }
  destruct (client_loop (verbose o) (turns os)) as [l [|]] eqn:Eloop; [reflexivity|].
  assert (Hleft : Exists (fun t => rd_ret t < 0 \/ to_size_t (snd_ret t) <> 2)
                    (turns os)).
  { apply (client_loop_left (verbose o)). rewrite Eloop. reflexivity. }
  intuition (try discriminate; try congruence).
Qed.

Lemma client_exit_status_witness :
  main [] (mk_answers 3 (-2) 4 0 []) =
    Finished (-1)
      [SysOpen "/dev/input/event0" 3; SysGetaddrinfo "127.0.0.1" "65432" (-2);
       SysGaiError (-2); SysClose 3] /\
  wait_status (-1) = 255 /\
  Exists (fun t => rd_ret t < 0 \/ to_size_t (snd_ret t) <> 2)
    [mk_turn 24 (mk_event 1 30 1) 2; mk_turn (-1) (mk_event 1 30 1) 2].
Proof.
  split; [reflexivity|]. split.
  - exact (proj1 (proj2 (proj2 (proj2 (client_exit_status []
             (mk_answers 3 (-2) 4 0 []))))) eq_refl).
  - exact (proj2 (proj2 (proj2 (proj2 (client_exit_status []
             (mk_answers 3 0 4 0
                [mk_turn 24 (mk_event 1 30 1) 2;
                 mk_turn (-1) (mk_event 1 30 1) 2]))))) eq_refl).
Defined.


End ClientMore.

(* ===================================================================== *)
(** * The read timeout that is not one                                    *)
(* ===================================================================== *)

Module TtyFacts.
Import Termios Tty TermiosFacts.



(** The setting the comment at forwarder.c:129 describes is MIN = 0: then
    the read gives up after [VTIME] tenths of silence. *)
Lemma idle_timeout_needs_vmin_0 (count k : nat) :
  read_from 0 10 count 0 [] (-1) (silence (11 + k)) = ReadReturns 10 [].
Proof. reflexivity. Qed.

Section Read.
Context {H : termios_h}.


End Read.


End TtyFacts.
